(** * node-package-builder: a shallow embedding of [NodePackageBuilder]
    (src/unnamed/part_000, the cross-platform builder class).

    JS strings are [String.string] (code units below 256), arrays are
    lists, thrown errors are [Err message] in a small state/error monad. *)

From Stdlib Require Import String Ascii List Bool Arith ZArith QArith Lia.
From Stdlib Require DecimalNat.
Import ListNotations.
Set Warnings "-register-all".
Open Scope string_scope.
Open Scope nat_scope.

(* ------------------------------------------------------------------ *)
(** ** String primitives of the JS runtime used by the class *)

(** [String.prototype.includes]: some suffix of [s] starts with [t]. *)
Fixpoint includes (s t : string) : bool :=
  String.prefix t s ||
  match s with
  | EmptyString => false
  | String _ s' => includes s' t
  end.

(** [String.prototype.endsWith]: some suffix of [s] equals [t]. *)
Fixpoint endsWith (s t : string) : bool :=
  String.eqb s t ||
  match s with
  | EmptyString => false
  | String _ s' => endsWith s' t
  end.

(** [s.slice(1)]. *)
Definition slice1 (s : string) : string :=
  match s with
  | EmptyString => EmptyString
  | String _ s' => s'
  end.

(** [s.split('.')]: always at least one piece. *)
Fixpoint split_dot_aux (s acc : string) : list string :=
  match s with
  | EmptyString => [acc]
  | String c s' =>
      if Ascii.eqb c "." then acc :: split_dot_aux s' EmptyString
      else split_dot_aux s' (acc ++ String c EmptyString)
  end.

Definition split_dot (s : string) : list string := split_dot_aux s EmptyString.

(* ------------------------------------------------------------------ *)
(** ** [Number(s)] on the strings [split('.')] produces

    A JS number is NaN, a finite double or an infinity.  A finite double
    is kept as its exact value, a rational; [binary64] rounds the
    mathematical value of a numeral to it (RoundMVResult). *)

Inductive jsnum : Type :=
| JNaN
| JNum (q : Q)
| JPosInf
| JNegInf.

(** StrWhiteSpaceChar restricted to code units below 256. *)
Definition is_ws (c : ascii) : bool :=
  match nat_of_ascii c with
  | 9 | 10 | 11 | 12 | 13 | 32 | 160 => true
  | _ => false
  end.

Fixpoint drop_ws (l : list ascii) : list ascii :=
  match l with
  | c :: l' => if is_ws c then drop_ws l' else l
  | [] => []
  end.

Definition trim (l : list ascii) : list ascii := rev (drop_ws (rev (drop_ws l))).

Definition digit_val (base : nat) (c : ascii) : option nat :=
  let n := nat_of_ascii c in
  let d :=
    if (48 <=? n) && (n <=? 57) then Some (n - 48)
    else if (97 <=? n) && (n <=? 102) then Some (n - 87)
    else if (65 <=? n) && (n <=? 70) then Some (n - 55)
    else None in
  match d with
  | Some v => if v <? base then Some v else None
  | None => None
  end.

Fixpoint digits_value (base : nat) (acc : Z) (l : list ascii) : option Z :=
  match l with
  | [] => Some acc
  | c :: l' =>
      match digit_val base c with
      | Some d => digits_value base (acc * Z.of_nat base + Z.of_nat d)%Z l'
      | None => None
      end
  end.

(** A non-empty run of digits in [base]. *)
Definition parse_digits (base : nat) (l : list ascii) : option Z :=
  match l with
  | [] => None
  | _ => digits_value base 0 l
  end.

(** [0x..], [0o..], [0b..] literals (unsigned). *)
Definition parse_nondecimal (l : list ascii) : option Z :=
  match l with
  | "0"%char :: c :: r =>
      if Ascii.eqb c "x" || Ascii.eqb c "X" then parse_digits 16 r
      else if Ascii.eqb c "o" || Ascii.eqb c "O" then parse_digits 8 r
      else if Ascii.eqb c "b" || Ascii.eqb c "B" then parse_digits 2 r
      else None
  | _ => None
  end.

Fixpoint split_at_e (l : list ascii) : list ascii * option (list ascii) :=
  match l with
  | [] => ([], None)
  | c :: l' =>
      if Ascii.eqb c "e" || Ascii.eqb c "E" then ([], Some l')
      else let '(m, e) := split_at_e l' in (c :: m, e)
  end.

Definition parse_exponent (l : list ascii) : option Z :=
  match l with
  | "+"%char :: r => parse_digits 10 r
  | "-"%char :: r => option_map Z.opp (parse_digits 10 r)
  | _ => parse_digits 10 l
  end.

Definition scale10 (m : Z) (e : Z) : Q :=
  if (0 <=? e)%Z then inject_Z (m * 10 ^ e)
  else Qmake m (Z.to_pos (10 ^ (- e))).

(** Round-half-even of [n/d], for [d > 0]. *)
Definition round_half_even (n d : Z) : Z :=
  let qq := (n / d)%Z in
  let r := (n mod d)%Z in
  match Z.compare (2 * r) d with
  | Lt => qq
  | Gt => (qq + 1)%Z
  | Eq => if Z.even qq then qq else (qq + 1)%Z
  end.

(** [2^k <= n/d]. *)
Definition pow2_le (k n : Z) (d : positive) : bool :=
  if (0 <=? k)%Z then (2 ^ k * Zpos d <=? n)%Z else (Zpos d <=? n * 2 ^ (- k))%Z.

(** [floor(log2(n/d))] for [n > 0]. *)
Definition floor_log2 (n : Z) (d : positive) : Z :=
  let k := (Z.log2 n - Z.log2 (Zpos d))%Z in
  if pow2_le k n d then k else (k - 1)%Z.

(** The IEEE 754 binary64 value nearest to [n/d] ([n >= 0]), ties to even:
    53-bit significands, gradual underflow below 2^-1022 (down to 0) and
    overflow to Infinity from 2^1024 - 2^970 on. *)
Definition binary64 (n : Z) (d : positive) : jsnum :=
  if (n <=? 0)%Z then JNum 0%Q
  else
    let e := Z.max (floor_log2 n d - 52) (-1074) in
    if (0 <=? e)%Z then
      let m := round_half_even n (Zpos d * 2 ^ e) in
      if (2 ^ 1024 <=? m * 2 ^ e)%Z then JPosInf else JNum (inject_Z (m * 2 ^ e))
    else
      let m := round_half_even (n * 2 ^ (- e)) (Zpos d) in
      JNum (Qred (Qmake m (Z.to_pos (2 ^ (- e))))).

Definition binary64_of_Q (q : Q) : jsnum := binary64 (Qnum q) (Qden q).

(** StrUnsignedDecimalLiteral without a fraction part (the pieces of
    [split('.')] hold no '.'). *)
Definition parse_unsigned (l : list ascii) : option jsnum :=
  if list_eq_dec ascii_dec l (list_ascii_of_string "Infinity") then Some JPosInf
  else
    match split_at_e l with
    | (m, None) => option_map (fun z => binary64 z 1) (parse_digits 10 m)
    | (m, Some e) =>
        match parse_digits 10 m, parse_exponent e with
        | Some z, Some k => Some (binary64_of_Q (scale10 z k))
        | _, _ => None
        end
    end.

Definition js_neg (v : jsnum) : jsnum :=
  match v with
  | JNum q => JNum (- q)%Q
  | JPosInf => JNegInf
  | JNegInf => JPosInf
  | JNaN => JNaN
  end.

Definition parse_signed (l : list ascii) : option jsnum :=
  match l with
  | "+"%char :: r => parse_unsigned r
  | "-"%char :: r => option_map js_neg (parse_unsigned r)
  | _ => parse_unsigned l
  end.

(** [Number(s)] (ToNumber applied to a string). *)
Definition js_number (s : string) : jsnum :=
  match trim (list_ascii_of_string s) with
  | [] => JNum 0%Q
  | l =>
      match parse_nondecimal l with
      | Some z => binary64 z 1
      | None =>
          match parse_signed l with
          | Some v => v
          | None => JNaN
          end
      end
  end.

(** [x || 0] on an array element: [undefined], NaN and zero are falsy. *)
Definition or0 (o : option jsnum) : jsnum :=
  match o with
  | None => JNum 0%Q
  | Some JNaN => JNum 0%Q
  | Some v => v
  end.

(** [a > b] on numbers: every comparison with NaN is false. *)
Definition js_gt (a b : jsnum) : bool :=
  match a, b with
  | JNaN, _ | _, JNaN => false
  | JPosInf, JPosInf => false
  | JPosInf, _ => true
  | JNegInf, _ => false
  | JNum _, JNegInf => true
  | JNum _, JPosInf => false
  | JNum x, JNum y => negb (Qle_bool x y)
  end.

Definition js_lt (a b : jsnum) : bool := js_gt b a.

(* ------------------------------------------------------------------ *)
(** ** [isVersionGreaterOrEqual] and [checkNodeVersion] *)

(** The [for] loop of [isVersionGreaterOrEqual], from index [i], with [k]
    iterations left. *)
Fixpoint vge_loop (currentParts requiredParts : list jsnum) (i k : nat) : bool :=
  match k with
  | O => true
  | S k' =>
      let currentPart := or0 (nth_error currentParts i) in
      let requiredPart := or0 (nth_error requiredParts i) in
      if js_gt currentPart requiredPart then true
      else if js_lt currentPart requiredPart then false
      else vge_loop currentParts requiredParts (S i) k'
  end.

Definition isVersionGreaterOrEqual (current required : string) : bool :=
  let currentParts := map js_number (split_dot current) in
  let requiredParts := map js_number (split_dot required) in
  vge_loop currentParts requiredParts 0
    (Nat.max (length currentParts) (length requiredParts)).

(** Errors thrown by the code, carrying [error.message]. *)
Inductive res (A : Type) : Type :=
| Ok (a : A)
| Err (message : string).
Arguments Ok {A} a.
Arguments Err {A} message.

(** [checkNodeVersion], on the host's [process.version]. *)
Definition checkNodeVersion (process_version : string) : res unit :=
  let currentVersion := slice1 process_version in
  let requiredVersion := "19.9.0" in
  if isVersionGreaterOrEqual currentVersion requiredVersion then Ok tt
  else Err ("Node.js version " ++ requiredVersion
            ++ " or higher is required. Current version: " ++ currentVersion).

(** Left-to-right comparison of numeric components, a missing component
    counting as 0. *)
Fixpoint lex_ge (xs ys : list nat) {struct xs} : bool :=
  match xs with
  | [] => forallb (fun y => Nat.eqb y 0) ys
  | x :: xs' =>
      let y := hd 0 ys in
      if y <? x then true
      else if x <? y then false
      else lex_ge xs' (tl ys)
  end.

Definition is_digit (c : ascii) : bool :=
  let n := nat_of_ascii c in (48 <=? n) && (n <=? 57).

(** A decimal numeral: a non-empty run of ASCII digits. *)
Definition is_numeral (s : string) : bool :=
  match s with
  | EmptyString => false
  | _ => forallb is_digit (list_ascii_of_string s)
  end.

Fixpoint dec_value_aux (acc : nat) (l : list ascii) : nat :=
  match l with
  | [] => acc
  | c :: l' => dec_value_aux (acc * 10 + (nat_of_ascii c - 48)) l'
  end.

Definition dec_value (s : string) : nat := dec_value_aux 0 (list_ascii_of_string s).


Example split_dot_ex : split_dot "20.1.0" = ["20"; "1"; "0"].
Proof. reflexivity. Qed.
Example js_number_ex :
  map js_number ["12"; ""; " 7 "; "abc"; "0x1A"; "1e2"; "1e-400"; "1e400";
                  "9007199254740993"]
  = [JNum 12%Q; JNum 0%Q; JNum 7%Q; JNaN; JNum 26%Q; JNum 100%Q; JNum 0%Q; JPosInf;
     JNum 9007199254740992%Q].
Proof. vm_compute. reflexivity. Qed.

(** Above 2^53 numerals are compared after rounding to doubles. *)
Example isVersionGreaterOrEqual_rounding_ex :
  isVersionGreaterOrEqual "9007199254740992" "9007199254740993" = true
  /\ isVersionGreaterOrEqual "abc" "1e-400" = true.
Proof. split; vm_compute; reflexivity. Qed.

(* ------------------------------------------------------------------ *)
(** ** Lemmas on the version comparison *)



















Lemma split_dot_aux_cons : forall s acc, exists x r, split_dot_aux s acc = x :: r.
Proof.
  induction s as [|c s IH]; intros acc; simpl; [eauto|].
  destruct (Ascii.eqb c "."); eauto.
Qed.

Lemma split_dot_cons : forall s, exists r, split_dot s = hd "" (split_dot s) :: r.
Proof.
  intros s. destruct (split_dot_aux_cons s EmptyString) as (x & r & E).
  exists r. unfold split_dot. rewrite E. reflexivity.
Qed.



(** C10 *)
(** Claim C10, counterexample: a non-numeric component is not skipped;
    "abc" is not greater or equal to "19.9.0" and [checkNodeVersion]
    rejects the host version "vabc". *)
Lemma isVersionGreaterOrEqual_nan_not_skipped :
  isVersionGreaterOrEqual "abc" "19.9.0" = false
  /\ checkNodeVersion "vabc"
     = Err "Node.js version 19.9.0 or higher is required. Current version: abc".
Proof. split; vm_compute; reflexivity. Qed.

(** Claim C10, as the code behaves: [|| 0] turns a NaN component into 0,
    so a current version whose first component is not a number compares
    below every required version whose first component is positive, and
    [checkNodeVersion] rejects every host version whose first component
    (after the leading character) is not a number. *)
Theorem isVersionGreaterOrEqual_nan_is_zero (current required : string) (process_version : string)
  (Hcur : js_number (hd "" (split_dot current)) = JNaN)
  (Hreq : (exists q, js_number (hd "" (split_dot required)) = JNum q /\ (0 < q)%Q)
          \/ js_number (hd "" (split_dot required)) = JPosInf)
  (Hpv : js_number (hd "" (split_dot (slice1 process_version))) = JNaN) :
  isVersionGreaterOrEqual current required = false
  /\ exists msg, checkNodeVersion process_version = Err msg.
Proof.
  assert (Hfirst : forall cur req,
            js_number (hd "" (split_dot cur)) = JNaN ->
            (exists q, js_number (hd "" (split_dot req)) = JNum q /\ (0 < q)%Q)
            \/ js_number (hd "" (split_dot req)) = JPosInf ->
            isVersionGreaterOrEqual cur req = false).
  { intros cur req Hc Hr. unfold isVersionGreaterOrEqual.
    destruct (split_dot_cons cur) as (rc & Ec). destruct (split_dot_cons req) as (rr & Er).
    rewrite Ec, Er. cbn [map length]. rewrite <- Nat.succ_max_distr.
    cbn [vge_loop nth_error]. rewrite Hc.
    destruct Hr as [(q & Hq & Hpos)|Hinf].
    - rewrite Hq. unfold js_lt, js_gt, or0.
      assert (H1 : Qle_bool 0 q = true) by (apply Qle_bool_iff, Qlt_le_weak, Hpos).
      assert (H2 : Qle_bool q 0 = false).
      { destruct (Qle_bool q 0) eqn:E; [|reflexivity].
        apply Qle_bool_iff in E. exfalso. apply (Qlt_not_le _ _ Hpos E). }
      rewrite H1, H2. reflexivity.
    - rewrite Hinf. reflexivity. }
  split; [exact (Hfirst _ _ Hcur Hreq)|].
  unfold checkNodeVersion. rewrite (Hfirst _ "19.9.0" Hpv); [eauto|].
  left. exists 19%Q. split; [reflexivity|]. reflexivity.
Qed.

Lemma isVersionGreaterOrEqual_nan_is_zero_witness :
  js_number (hd "" (split_dot "abc")) = JNaN
  /\ isVersionGreaterOrEqual "abc" "1.0" = false
  /\ exists msg, checkNodeVersion "vabc" = Err msg.
Proof.
  split; [vm_compute; reflexivity|].
  apply (isVersionGreaterOrEqual_nan_is_zero "abc" "1.0" "vabc").
  - vm_compute. reflexivity.
  - left. exists 1%Q. split; [vm_compute; reflexivity|reflexivity].
  - vm_compute. reflexivity.
Defined.

(* ------------------------------------------------------------------ *)
(** ** Build options, executable names and download URLs *)

(** [this.options] after the constructor. *)
Record BuildOptions := {
  main : string;
  output : string;
  disableExperimentalSEAWarning : bool;
  useSnapshot : bool;
  useCodeCache : bool;
  assets : list (string * string);
  platforms : list string;
  tempDir : string
}.

Definition with_output (o : BuildOptions) (s : string) : BuildOptions :=
  {| main := main o; output := s;
     disableExperimentalSEAWarning := disableExperimentalSEAWarning o;
     useSnapshot := useSnapshot o; useCodeCache := useCodeCache o;
     assets := assets o; platforms := platforms o; tempDir := tempDir o |}.

Definition getExecutableName (options : BuildOptions) (platform : string) : string :=
  let baseName := output options in
  if String.eqb platform "win32" then
    if endsWith baseName ".exe" then baseName else baseName ++ ".exe"
  else baseName.

Definition getNodeDownloadUrl (version platform : string) : res string :=
  let arch := "x64" in
  let baseUrl := "https://nodejs.org/dist" in
  if String.eqb platform "win32" then
    Ok (baseUrl ++ "/v" ++ version ++ "/node-v" ++ version ++ "-win-" ++ arch ++ ".zip")
  else if String.eqb platform "darwin" then
    Ok (baseUrl ++ "/v" ++ version ++ "/node-v" ++ version ++ "-darwin-" ++ arch ++ ".tar.gz")
  else if String.eqb platform "linux" then
    Ok (baseUrl ++ "/v" ++ version ++ "/node-v" ++ version ++ "-linux-" ++ arch ++ ".tar.gz")
  else Err ("Unsupported platform: " ++ platform).

Lemma endsWith_eq : forall s t,
  endsWith s t = String.eqb s t || match s with
                                   | EmptyString => false
                                   | String _ s' => endsWith s' t
                                   end.
Proof. intros [|c s] t; reflexivity. Qed.

Lemma endsWith_app : forall s t, endsWith (s ++ t) t = true.
Proof.
  induction s as [|c s IH]; intros t.
  - simpl. rewrite endsWith_eq, String.eqb_refl. reflexivity.
  - simpl. rewrite IH, orb_true_r. reflexivity.
Qed.

Lemma includes_eq : forall s t,
  includes s t = String.prefix t s || match s with
                                      | EmptyString => false
                                      | String _ s' => includes s' t
                                      end.
Proof. intros [|c s] t; reflexivity. Qed.

Lemma prefix_nil : forall s, String.prefix "" s = true.
Proof. intros [|c s]; reflexivity. Qed.

Lemma prefix_app : forall s t, String.prefix s (s ++ t) = true.
Proof.
  induction s as [|c s IH]; intros t; simpl; [apply prefix_nil|].
  destruct (ascii_dec c c) as [_|n]; [apply IH|contradiction].
Qed.

Lemma includes_app_r : forall a b t, includes b t = true -> includes (a ++ b) t = true.
Proof.
  induction a as [|c a IH]; intros b t H; simpl; [exact H|].
  rewrite (IH _ _ H), orb_true_r. reflexivity.
Qed.

Lemma includes_app_prefix : forall a t b, includes (a ++ t ++ b) t = true.
Proof.
  intros a t b. apply includes_app_r.
  rewrite includes_eq, prefix_app. reflexivity.
Qed.

(** C9 *)
(** Claim C9: for win32, [getExecutableName] appends ".exe" exactly when
    the base name does not end in ".exe", its result ends in ".exe", and
    applying it again to its own result changes nothing; for linux and
    darwin the base name is returned unchanged. *)
Theorem getExecutableName_exe_suffix (o : BuildOptions) :
  (endsWith (output o) ".exe" = false -> getExecutableName o "win32" = output o ++ ".exe")
  /\ (endsWith (output o) ".exe" = true -> getExecutableName o "win32" = output o)
  /\ endsWith (getExecutableName o "win32") ".exe" = true
  /\ getExecutableName (with_output o (getExecutableName o "win32")) "win32"
     = getExecutableName o "win32"
  /\ getExecutableName o "linux" = output o
  /\ getExecutableName o "darwin" = output o.
Proof.
  unfold getExecutableName; simpl.
  destruct (endsWith (output o) ".exe") eqn:E.
  - repeat split; try discriminate; auto. rewrite E. reflexivity.
  - repeat split; try discriminate; auto.
    + apply endsWith_app.
    + rewrite endsWith_app. reflexivity.
Qed.

Lemma endsWith_app_r : forall a b t, endsWith b t = true -> endsWith (a ++ b) t = true.
Proof.
  induction a as [|c a IH]; intros b t H; [exact H|].
  simpl. rewrite (IH _ _ H), orb_true_r. reflexivity.
Qed.

Lemma getNodeDownloadUrl_shape : forall version platform tag ext,
  (platform = "linux" /\ tag = "linux" /\ ext = ".tar.gz")
  \/ (platform = "darwin" /\ tag = "darwin" /\ ext = ".tar.gz")
  \/ (platform = "win32" /\ tag = "win" /\ ext = ".zip") ->
  getNodeDownloadUrl version platform
  = Ok ("https://nodejs.org/dist/v" ++ version ++ "/node-v" ++ version
        ++ ("-" ++ tag ++ "-x64" ++ ext)).
Proof.
  intros version platform tag ext [(-> & -> & ->)|[(-> & -> & ->)|(-> & -> & ->)]];
  reflexivity.
Qed.

(** C7 *)
(** Claim C7, counterexample: the win32 URL does not contain the platform
    token "win32" (Node's distribution names that build "win"). *)
Lemma getNodeDownloadUrl_win32_token :
  getNodeDownloadUrl "20.18.0" "win32"
  = Ok "https://nodejs.org/dist/v20.18.0/node-v20.18.0-win-x64.zip"
  /\ includes "https://nodejs.org/dist/v20.18.0/node-v20.18.0-win-x64.zip" "win32" = false.
Proof. split; vm_compute; reflexivity. Qed.

(** Claim C7, as the code behaves: for linux and darwin the URL contains
    the version and the platform name and ends in ".tar.gz"; for win32 it
    contains the version and the distribution token "win" and ends in
    ".zip"; every other platform is rejected with "Unsupported platform". *)
Theorem getNodeDownloadUrl_tokens (version platform : string) :
  ((platform = "linux" \/ platform = "darwin") ->
   exists url, getNodeDownloadUrl version platform = Ok url
     /\ includes url version = true /\ includes url platform = true
     /\ endsWith url ".tar.gz" = true)
  /\ (exists url, getNodeDownloadUrl version "win32" = Ok url
     /\ includes url version = true /\ includes url "win" = true
     /\ endsWith url ".zip" = true)
  /\ (platform <> "linux" -> platform <> "darwin" -> platform <> "win32" ->
      getNodeDownloadUrl version platform = Err ("Unsupported platform: " ++ platform)).
Proof.
  assert (Hgen : forall tag ext,
    let url := "https://nodejs.org/dist/v" ++ version ++ "/node-v" ++ version
               ++ ("-" ++ tag ++ "-x64" ++ ext) in
    includes url version = true /\ includes url tag = true /\ endsWith url ext = true).
  { intros tag ext url. subst url. split; [|split].
    - apply includes_app_prefix.
    - do 5 apply includes_app_r. rewrite includes_eq, prefix_app. reflexivity.
    - do 6 apply endsWith_app_r. apply (endsWith_app "-x64"). }
  split; [|split].
  - intros [->| ->]; eexists; split.
    + apply (getNodeDownloadUrl_shape _ _ "linux" ".tar.gz"); auto.
    + apply Hgen.
    + apply (getNodeDownloadUrl_shape _ _ "darwin" ".tar.gz"); auto.
    + apply Hgen.
  - eexists; split; [apply (getNodeDownloadUrl_shape _ _ "win" ".zip"); auto|apply Hgen].
  - intros H1 H2 H3. unfold getNodeDownloadUrl.
    apply String.eqb_neq in H1, H2, H3. rewrite H1, H2, H3. reflexivity.
Qed.

(* ------------------------------------------------------------------ *)
(** ** The world the builder runs in

    The file system maps paths to contents (directories are [Plain]
    entries); [locked] paths are those the process may neither create nor
    remove (permissions, open handles).  Subprocesses ([execSync]), the
    network ([axios]) and the [semver] package are oracles of the world.
    Console output is not modelled. *)

Inductive content : Type :=
| Plain
| Archive (members : list string).

Definition FS := list (string * content).

Inductive json : Type :=
| JStr (s : string)
| JBool (b : bool)
| JObj (fields : list (string * json)).

(** One entry of https://nodejs.org/dist/index.json: [version] is [None]
    when it is not a string (reading [.slice] then throws), [lts_false]
    tells whether [v.lts === false]. *)
Record IndexEntry := {
  ie_version : option string;
  ie_lts_false : bool
}.

Record World := {
  host_platform : string;                      (* process.platform *)
  execPath : string;                           (* process.execPath *)
  cwd : string;                                (* process.cwd() *)
  homedir : string;                            (* os.homedir() *)
  locked : string -> bool;
  exec : string -> option nat -> FS -> res string * FS;  (* execSync(cmd, {timeout}) *)
  http_get : string -> option (list string);   (* streamed download: archive members *)
  version_index : option (list IndexEntry);    (* axios.get(index.json).data, when an array *)
  semver_gte : string -> string -> res bool;
  semver_lte : string -> string -> res bool;
  semver_major : string -> res nat
}.

(** The builder instance: its options and its [buildId]. *)
Record Builder := {
  options : BuildOptions;
  buildId : string
}.

Inductive event : Type :=
| EvExec (cmd : string) (timeout : option nat)
| EvDownload (url path : string)
| EvWrite (path : string) (data : json)
| EvChmod (path mode : string).

Record St := {
  fs : FS;
  log : list event            (* newest first *)
}.

Definition M (A : Type) : Type := St -> res A * St.

Definition ret {A} (a : A) : M A := fun st => (Ok a, st).
Definition bind {A B} (m : M A) (k : A -> M B) : M B :=
  fun st => match m st with
            | (Ok a, st') => k a st'
            | (Err e, st') => (Err e, st')
            end.
Definition throw {A} (msg : string) : M A := fun st => (Err msg, st).
(** [try { m } catch (error) { h(error.message) }] *)
Definition catch {A} (m : M A) (h : string -> M A) : M A :=
  fun st => match m st with
            | (Ok a, st') => (Ok a, st')
            | (Err e, st') => h e st'
            end.
(** [try { m } finally { f }] *)
Definition finally {A} (m : M A) (f : M unit) : M A :=
  fun st => let '(r, st1) := m st in
            match f st1 with
            | (Ok _, st2) => (r, st2)
            | (Err e, st2) => (Err e, st2)
            end.
Definition lift {A} (r : res A) : M A := fun st => (r, st).

Notation "x <- m ;; k" := (bind m (fun x => k)) (at level 61, m at next level, right associativity).
Notation "m ;;; k" := (bind m (fun _ => k)) (at level 61, right associativity).

Definition when (c : bool) (m : M unit) : M unit := if c then m else ret tt.

Definition dq : string := String (ascii_of_nat 34) EmptyString.
Definition quote (s : string) : string := dq ++ s ++ dq.

(** [path.join] on the normalised paths the class builds. *)
Definition join (a b : string) : string := a ++ "/" ++ b.

(** A single path segment: non-empty, not [.] or [..], and free of the
    separators [/] and [\]. *)
Definition path_segment (s : string) : bool :=
  negb (String.eqb s "") && negb (String.eqb s ".") && negb (String.eqb s "..")
  && forallb (fun c => negb (Ascii.eqb c "/") && negb (Ascii.eqb c (ascii_of_nat 92)))
       (list_ascii_of_string s).

Definition path_resolve (cwd_ p : string) : string :=
  match p with
  | String "/" _ => p
  | _ => join cwd_ p
  end.

Definition under (d p : string) : bool :=
  String.eqb p d || String.prefix (d ++ "/") p.

Definition fs_mem (p : string) (f : FS) : bool := existsb (fun e => String.eqb (fst e) p) f.
Definition fs_get (p : string) (f : FS) : option content :=
  option_map snd (find (fun e => String.eqb (fst e) p) f).
Definition fs_remove (p : string) (f : FS) : FS := filter (fun e => negb (String.eqb (fst e) p)) f.
Definition fs_add (p : string) (c : content) (f : FS) : FS := (p, c) :: fs_remove p f.

Section Builder.
Variable w : World.
Variable b : Builder.

Definition set_fs (f : FS) (st : St) : St := {| fs := f; log := log st |}.
Definition emit (e : event) : M unit :=
  fun st => (Ok tt, {| fs := fs st; log := e :: log st |}).

Definition existsSync (p : string) : M bool := fun st => (Ok (fs_mem p (fs st)), st).

Definition mkdirSync (p : string) : M unit :=
  fun st => if fs_mem p (fs st) then (Ok tt, st)
            else if locked w p then (Err ("EACCES: permission denied, mkdir '" ++ p ++ "'"), st)
            else (Ok tt, set_fs (fs_add p Plain (fs st)) st).

Definition writeFileSync (p : string) (data : json) : M unit :=
  fun st => if locked w p then (Err ("EACCES: permission denied, open '" ++ p ++ "'"), st)
            else (Ok tt, {| fs := fs_add p Plain (fs st); log := EvWrite p data :: log st |}).

Definition unlinkSync (p : string) : M unit :=
  fun st => if negb (fs_mem p (fs st)) then (Err ("ENOENT: no such file or directory, unlink '" ++ p ++ "'"), st)
            else if locked w p then (Err ("EPERM: operation not permitted, unlink '" ++ p ++ "'"), st)
            else (Ok tt, set_fs (fs_remove p (fs st)) st).

(** [fs.rmSync(d, { recursive: true, force: true })]: removes what it can
    below [d]; a locked entry survives together with its ancestors, and
    the call then throws. *)
Definition rmSync (d : string) : M unit :=
  fun st =>
    let blocked q := existsb (fun e => under q (fst e) && locked w (fst e)) (fs st) in
    let kept := filter (fun e => negb (under d (fst e)) || blocked (fst e)) (fs st) in
    if blocked d then (Err ("EPERM: operation not permitted, rm '" ++ d ++ "'"), set_fs kept st)
    else (Ok tt, set_fs kept st).

Definition copyFileSync (src dst : string) : M unit :=
  fun st => match fs_get src (fs st) with
            | None => (Err ("ENOENT: no such file or directory, copyfile '" ++ src ++ "' -> '" ++ dst ++ "'"), st)
            | Some c => if locked w dst then (Err ("EACCES: permission denied, copyfile '" ++ src ++ "' -> '" ++ dst ++ "'"), st)
                        else (Ok tt, set_fs (fs_add dst c (fs st)) st)
            end.

Definition renameSync (src dst : string) : M unit :=
  fun st => match fs_get src (fs st) with
            | None => (Err ("ENOENT: no such file or directory, rename '" ++ src ++ "' -> '" ++ dst ++ "'"), st)
            | Some c => if locked w src || locked w dst
                        then (Err ("EPERM: operation not permitted, rename '" ++ src ++ "' -> '" ++ dst ++ "'"), st)
                        else (Ok tt, set_fs (fs_add dst c (fs_remove src (fs st))) st)
            end.

Definition chmodSync (p mode : string) : M unit :=
  fun st => if fs_mem p (fs st) then (Ok tt, {| fs := fs st; log := EvChmod p mode :: log st |})
            else (Err ("ENOENT: no such file or directory, chmod '" ++ p ++ "'"), st).

(** [execSync(cmd, { timeout })], returning its standard output. *)
Definition execSync (cmd : string) (timeout : option nat) : M string :=
  fun st => let '(r, f) := exec w cmd timeout (fs st) in
            (r, {| fs := f; log := EvExec cmd timeout :: log st |}).

(* ------------------------------------------------------------------ *)
(** ** [getRecommendedNodeVersion] *)

Fixpoint filterM {A} (f : A -> res bool) (l : list A) : res (list A) :=
  match l with
  | [] => Ok []
  | x :: l' =>
      match f x with
      | Err e => Err e
      | Ok keep =>
          match filterM f l' with
          | Err e => Err e
          | Ok r => Ok (if keep then x :: r else r)
          end
      end
  end.

Fixpoint findM {A} (f : A -> res bool) (l : list A) : res (option A) :=
  match l with
  | [] => Ok None
  | x :: l' =>
      match f x with
      | Err e => Err e
      | Ok true => Ok (Some x)
      | Ok false => findM f l'
      end
  end.

(** [v.version] as a string; reading [.slice] of a non-string throws. *)
Definition entry_version (v : IndexEntry) : res string :=
  match ie_version v with
  | Some s => Ok s
  | None => Err "v.version.slice is not a function"
  end.

Definition minVersion : string := "19.9.0".
Definition maxVersion : string := "22.99.99".
Definition fallbackVersion : string := "20.18.0".
Definition preferredVersions : list string := ["20.18.0"; "20.17.0"; "20.16.0"; "20.15.1"].

(** The [filter] callback ([&&] short-circuits). *)
Definition valid_entry (v : IndexEntry) : res bool :=
  match entry_version v with
  | Err e => Err e
  | Ok s =>
      let version := slice1 s in
      match semver_gte w version minVersion with
      | Err e => Err e
      | Ok false => Ok false
      | Ok true =>
          match semver_lte w version maxVersion with
          | Err e => Err e
          | Ok false => Ok false
          | Ok true => Ok (negb (includes s "rc") && negb (includes s "beta"))
          end
      end
  end.

Fixpoint find_preferred (validVersions : list IndexEntry) (prefs : list string)
  : res (option string) :=
  match prefs with
  | [] => Ok None
  | preferred :: prefs' =>
      match findM (fun v => match entry_version v with
                            | Ok s => Ok (String.eqb (slice1 s) preferred)
                            | Err e => Err e
                            end) validVersions with
      | Err e => Err e
      | Ok (Some found) =>
          match entry_version found with
          | Ok s => Ok (Some (slice1 s))
          | Err e => Err e
          end
      | Ok None => find_preferred validVersions prefs'
      end
  end.

(** [v.lts !== false && semver.major(v.version.slice(1)) === 20] *)
Definition is_lts20 (v : IndexEntry) : res bool :=
  if ie_lts_false v then Ok false
  else match entry_version v with
       | Err e => Err e
       | Ok s => match semver_major w (slice1 s) with
                 | Err e => Err e
                 | Ok n => Ok (n =? 20)
                 end
       end.

(** The body of the [try] block. *)
Definition recommended_from_index : res string :=
  match version_index w with
  | None => Err "Request failed"
  | Some versions =>
      match filterM valid_entry versions with
      | Err e => Err e
      | Ok [] => Err ("No valid Node.js versions found (minimum: " ++ minVersion ++ ")")
      | Ok validVersions =>
          match find_preferred validVersions preferredVersions with
          | Err e => Err e
          | Ok (Some v) => Ok v
          | Ok None =>
              match findM is_lts20 validVersions with
              | Err e => Err e
              | Ok (Some latestLTS) =>
                  match entry_version latestLTS with
                  | Ok s => Ok (slice1 s)
                  | Err e => Err e
                  end
              | Ok None =>
                  match validVersions with
                  | v0 :: _ => match entry_version v0 with
                               | Ok s => Ok (slice1 s)
                               | Err e => Err e
                               end
                  | [] => Err "Cannot read properties of undefined (reading 'version')"
                  end
              end
          end
      end
  end.

Definition getRecommendedNodeVersion : string :=
  match recommended_from_index with
  | Ok v => v
  | Err _ => fallbackVersion
  end.


Lemma filterM_ok_in : forall {A} (f : A -> res bool) l l' x,
  filterM f l = Ok l' -> In x l' -> f x = Ok true.
Proof.
  intros A f l. induction l as [|y l IH]; intros l' x H Hin; simpl in H.
  - injection H as <-. destruct Hin.
  - destruct (f y) as [[|]|e] eqn:Ey; [| |discriminate].
    + destruct (filterM f l) as [r|e] eqn:Er; [|discriminate].
      injection H as <-. destruct Hin as [<-|Hin]; [exact Ey|exact (IH r x eq_refl Hin)].
    + destruct (filterM f l) as [r|e] eqn:Er; [|discriminate].
      injection H as <-. exact (IH r x eq_refl Hin).
Qed.

Lemma findM_some_in : forall {A} (f : A -> res bool) l x,
  findM f l = Ok (Some x) -> In x l.
Proof.
  intros A f l. induction l as [|y l IH]; intros x H; simpl in H; [discriminate|].
  destruct (f y) as [[|]|e]; [injection H as <-; left; reflexivity|right; auto|discriminate].
Qed.

Lemma find_preferred_some : forall vs prefs r,
  find_preferred vs prefs = Ok (Some r) ->
  exists v s, In v vs /\ entry_version v = Ok s /\ r = slice1 s.
Proof.
  intros vs prefs. induction prefs as [|p prefs IH]; intros r H; simpl in H; [discriminate|].
  destruct (findM _ vs) as [[found|]|e] eqn:Ef; [|apply IH, H|discriminate].
  destruct (entry_version found) as [s|e] eqn:Es; [|discriminate].
  injection H as <-. exists found, s. repeat split; auto.
  exact (findM_some_in _ _ _ Ef).
Qed.

Lemma valid_entry_true : forall v, valid_entry v = Ok true ->
  exists s, entry_version v = Ok s
    /\ semver_gte w (slice1 s) minVersion = Ok true
    /\ semver_lte w (slice1 s) maxVersion = Ok true
    /\ includes s "rc" = false /\ includes s "beta" = false.
Proof.
  intros v H. unfold valid_entry in H.
  destruct (entry_version v) as [s|e]; [|discriminate].
  exists s. split; [reflexivity|].
  destruct (semver_gte w (slice1 s) minVersion) as [[|]|e]; try discriminate.
  destruct (semver_lte w (slice1 s) maxVersion) as [[|]|e]; try discriminate.
  injection H as H. apply andb_prop in H as [H1 H2]. apply negb_true_iff in H1, H2.
  auto.
Qed.

Lemma includes_slice1 : forall s t, includes s t = false -> includes (slice1 s) t = false.
Proof.
  intros [|c s] t H; [exact H|]. simpl. rewrite includes_eq in H. simpl in H.
  apply orb_false_iff in H as [_ H]. exact H.
Qed.

Lemma recommended_from_index_valid : forall r, recommended_from_index = Ok r ->
  exists v s, entry_version v = Ok s /\ valid_entry v = Ok true /\ r = slice1 s.
Proof.
  intros r H. unfold recommended_from_index in H.
  destruct (version_index w) as [versions|]; [|discriminate].
  destruct (filterM valid_entry versions) as [valid|e] eqn:Ef; [|discriminate].
  destruct valid as [|v0 rest]; [discriminate|].
  destruct (find_preferred (v0 :: rest) preferredVersions) as [[r'|]|e] eqn:Ep; try discriminate.
  - injection H as <-. destruct (find_preferred_some _ _ _ Ep) as (v & s & Hin & Hs & ->).
    exists v, s. repeat split; auto. exact (filterM_ok_in _ _ _ _ Ef Hin).
  - destruct (findM is_lts20 (v0 :: rest)) as [[l|]|e] eqn:El; try discriminate.
    + destruct (entry_version l) as [s|e] eqn:Es; [|discriminate].
      injection H as <-. exists l, s. repeat split; auto.
      exact (filterM_ok_in _ _ _ _ Ef (findM_some_in _ _ _ El)).
    + destruct (entry_version v0) as [s|e] eqn:Es; [|discriminate].
      injection H as <-. exists v0, s. repeat split; auto.
      exact (filterM_ok_in _ _ _ _ Ef (or_introl eq_refl)).
Qed.

(** C4 *)
(** Claim C4: whatever the version index holds (or when fetching it
    fails), [getRecommendedNodeVersion] returns a version that semver
    places in [19.9.0, 22.99.99] and that contains neither "rc" nor
    "beta"; every failure (request, parse, empty filtered set) yields the
    fallback "20.18.0" and nothing is thrown (the result is a plain
    string).  The only assumption is the semver fact that 20.18.0 lies in
    that range. *)
Theorem getRecommendedNodeVersion_in_range
  (Hfb_min : semver_gte w fallbackVersion minVersion = Ok true)
  (Hfb_max : semver_lte w fallbackVersion maxVersion = Ok true) :
  semver_gte w getRecommendedNodeVersion "19.9.0" = Ok true
  /\ semver_lte w getRecommendedNodeVersion "22.99.99" = Ok true
  /\ includes getRecommendedNodeVersion "rc" = false
  /\ includes getRecommendedNodeVersion "beta" = false
  /\ (forall e, recommended_from_index = Err e -> getRecommendedNodeVersion = "20.18.0")
  /\ (version_index w = None -> getRecommendedNodeVersion = "20.18.0")
  /\ (forall versions, version_index w = Some versions ->
        filterM valid_entry versions = Ok [] -> getRecommendedNodeVersion = "20.18.0").
Proof.
  unfold getRecommendedNodeVersion.
  destruct recommended_from_index as [r|e] eqn:Hr.
  - destruct (recommended_from_index_valid r Hr) as (v & s & Hs & Hv & ->).
    destruct (valid_entry_true v Hv) as (s' & Hs' & Hgte & Hlte & Hrc & Hbeta).
    rewrite Hs in Hs'. injection Hs' as <-.
    repeat split; try assumption; try (apply includes_slice1; assumption).
    + intros e He. discriminate He.
    + intros Hn. unfold recommended_from_index in Hr. rewrite Hn in Hr. discriminate Hr.
    + intros vs Hvs He. unfold recommended_from_index in Hr. rewrite Hvs, He in Hr.
      discriminate Hr.
  - repeat split; auto.
Qed.

(* ------------------------------------------------------------------ *)
(** ** Runtime cache: [downloadFile], the extractors, [downloadNodeBinary] *)

(** [downloadFile]: the request, then the response streamed into a new
    file at [filePath]. *)
Definition downloadFile (url filePath : string) : M unit :=
  fun st =>
    let st1 := {| fs := fs st; log := EvDownload url filePath :: log st |} in
    match http_get w url with
    | None => (Err "Request failed with status code 404", st1)
    | Some members =>
        if locked w filePath
        then (Err ("EACCES: permission denied, open '" ++ filePath ++ "'"), st1)
        else (Ok tt, set_fs (fs_add filePath (Archive members) (fs st1)) st1)
    end.

(** [extractZip]: the first entry whose name ends in node.exe is written to
    [extractDir/node.exe]; with no such entry the promise resolves at the
    archive's end. *)
Definition extractZip (zipPath extractDir : string) : M unit :=
  fun st =>
    match fs_get zipPath (fs st) with
    | Some (Archive entries) =>
        match find (fun e => endsWith e "node.exe") entries with
        | Some _ =>
            let outputPath := join extractDir "node.exe" in
            if locked w outputPath
            then (Err ("EACCES: permission denied, open '" ++ outputPath ++ "'"), st)
            else (Ok tt, set_fs (fs_add outputPath Plain (fs st)) st)
        | None => (Ok tt, st)
        end
    | _ => (Err "end of central directory record signature not found", st)
    end.

(** [tar.extract] with the filter [path === nodeBinaryPath]. *)
Definition tar_extract (tarPath cwd_ nodeBinaryPath folderName : string) : M unit :=
  fun st =>
    match fs_get tarPath (fs st) with
    | Some (Archive entries) =>
        if existsb (fun e => String.eqb e nodeBinaryPath) entries then
          let target := join cwd_ nodeBinaryPath in
          if locked w target
          then (Err ("EACCES: permission denied, open '" ++ target ++ "'"), st)
          else (Ok tt, set_fs (fs_add target Plain
                                (fs_add (join cwd_ (folderName ++ "/bin")) Plain
                                  (fs_add (join cwd_ folderName) Plain (fs st)))) st)
        else (Ok tt, st)
    | _ => (Err "TAR_BAD_ARCHIVE: Unrecognized archive format", st)
    end.

Definition extractTarGz (tarPath extractDir version platform : string) : M unit :=
  let folderName := "node-v" ++ version ++ "-" ++ platform ++ "-x64" in
  let nodeBinaryPath := folderName ++ "/bin/node" in
  tar_extract tarPath extractDir nodeBinaryPath folderName ;;;
  let extractedPath := join extractDir nodeBinaryPath in
  let finalPath := join extractDir "node" in
  e <- existsSync extractedPath ;;
  when e (
    renameSync extractedPath finalPath ;;;
    let folderPath := join extractDir folderName in
    f <- existsSync folderPath ;;
    when f (rmSync folderPath)).

Definition extractNodeBinary (archivePath extractDir platform version : string) : M unit :=
  if String.eqb platform "win32" then extractZip archivePath extractDir
  else extractTarGz archivePath extractDir version platform.

Definition cacheDir : string := join (join (homedir w) ".node-package-builder") "cache".

Definition binaryName (platform : string) : string :=
  if String.eqb platform "win32" then "node.exe" else "node".

(** The canonical cache path [cache_root/platform/version/binary]. *)
Definition cachedBinaryPath (platform version : string) : string :=
  join (join (join cacheDir platform) version) (binaryName platform).

Definition archiveFile (platform version : string) : string :=
  join (join cacheDir platform)
    ("node-" ++ version ++ "-" ++ platform ++ "."
     ++ (if String.eqb platform "win32" then "zip" else "tar.gz")).

Definition downloadNodeBinary (platform : string) : M string :=
  let version := getRecommendedNodeVersion in
  let platformDir := join cacheDir platform in
  let versionDir := join platformDir version in
  c <- existsSync cacheDir ;;
  when (negb c) (mkdirSync cacheDir) ;;;
  d <- existsSync platformDir ;;
  when (negb d) (mkdirSync platformDir) ;;;
  let executableName := binaryName platform in
  let executablePath := join versionDir executableName in
  cached <- existsSync executablePath ;;
  if cached then ret executablePath
  else
    downloadUrl <- lift (getNodeDownloadUrl version platform) ;;
    let archivePath := archiveFile platform version in
    downloadFile downloadUrl archivePath ;;;
    v <- existsSync versionDir ;;
    when (negb v) (mkdirSync versionDir) ;;;
    extractNodeBinary archivePath versionDir platform version ;;;
    unlinkSync archivePath ;;;
    present <- existsSync executablePath ;;
    if negb present then throw ("Failed to extract Node.js executable for " ++ platform)
    else
      when (negb (String.eqb platform "win32")) (chmodSync executablePath "755") ;;;
      ret executablePath.


Fixpoint count_downloads (l : list event) : nat :=
  match l with
  | [] => 0
  | EvDownload _ _ :: l' => S (count_downloads l')
  | _ :: l' => count_downloads l'
  end.

(** A computation that records no event. *)
Definition silent {A} (m : M A) : Prop := forall st r st', m st = (r, st') -> log st' = log st.

Lemma bind_ok_inv : forall {A B} (m : M A) (k : A -> M B) st x st',
  bind m k st = (Ok x, st') -> exists a st1, m st = (Ok a, st1) /\ k a st1 = (Ok x, st').
Proof.
  intros A B m k st x st' H. unfold bind in H.
  destruct (m st) as [[a|e] st1]; [eauto|discriminate].
Qed.

Lemma bind_silent : forall {A B} (m : M A) (k : A -> M B),
  silent m -> (forall a, silent (k a)) -> silent (bind m k).
Proof.
  intros A B m k Hm Hk st r st' H. unfold bind in H.
  destruct (m st) as [[a|e] st1] eqn:E.
  - rewrite (Hk a _ _ _ H). exact (Hm _ _ _ E).
  - injection H as _ <-. exact (Hm _ _ _ E).
Qed.

Lemma when_silent : forall c m, silent m -> silent (when c m).
Proof. intros [|] m Hm st r st' H; [exact (Hm _ _ _ H)|injection H as _ <-; reflexivity]. Qed.

Ltac silent_prim :=
  let st := fresh "st" in let r := fresh "r" in let st' := fresh "st'" in
  let H := fresh "H" in
  intros st r st' H;
  repeat match type of H with
         | context [match ?x with _ => _ end] => destruct x
         end;
  injection H as _ <-; reflexivity.

Lemma existsSync_silent : forall p, silent (existsSync p).
Proof. intros p. silent_prim. Qed.
Lemma mkdirSync_silent : forall p, silent (mkdirSync p).
Proof. intros p. unfold mkdirSync. silent_prim. Qed.
Lemma renameSync_silent : forall p q, silent (renameSync p q).
Proof. intros p q. unfold renameSync. silent_prim. Qed.
Lemma rmSync_silent : forall p, silent (rmSync p).
Proof. intros p. unfold rmSync. silent_prim. Qed.
Lemma unlinkSync_silent : forall p, silent (unlinkSync p).
Proof. intros p. unfold unlinkSync. silent_prim. Qed.
Lemma extractZip_silent : forall p d, silent (extractZip p d).
Proof. intros p d. unfold extractZip. silent_prim. Qed.
Lemma tar_extract_silent : forall p d n f, silent (tar_extract p d n f).
Proof. intros p d n f. unfold tar_extract. silent_prim. Qed.

Lemma extractNodeBinary_silent : forall a d p v, silent (extractNodeBinary a d p v).
Proof.
  intros a d p v. unfold extractNodeBinary. destruct (String.eqb p "win32").
  - apply extractZip_silent.
  - unfold extractTarGz. apply bind_silent; [apply tar_extract_silent|intros _].
    apply bind_silent; [apply existsSync_silent|intros e].
    apply when_silent, bind_silent; [apply renameSync_silent|intros _].
    apply bind_silent; [apply existsSync_silent|intros f].
    apply when_silent, rmSync_silent.
Qed.

Lemma fs_mem_remove : forall p f, fs_mem p (fs_remove p f) = false.
Proof.
  intros p f. induction f as [|[q c] f IH]; [reflexivity|].
  simpl. destruct (String.eqb_spec q p) as [->|Hne]; simpl; [exact IH|].
  apply String.eqb_neq in Hne. rewrite Hne. exact IH.
Qed.

Lemma existsSync_inv : forall p st a st1,
  existsSync p st = (Ok a, st1) -> a = fs_mem p (fs st) /\ st1 = st.
Proof. intros p st a st1 H. injection H as <- <-. auto. Qed.

Lemma when_ok_inv : forall c m st st1,
  when c m st = (Ok tt, st1) -> (c = true /\ m st = (Ok tt, st1)) \/ (c = false /\ st1 = st).
Proof. intros [|] m st st1 H; [left; auto|right; injection H as <-; auto]. Qed.

Lemma lift_ok_inv : forall {A} (r : res A) st a st1,
  lift r st = (Ok a, st1) -> r = Ok a /\ st1 = st.
Proof. intros A r st a st1 H. injection H as H <-. rewrite H. auto. Qed.

Lemma downloadFile_ok_inv : forall url p st st1,
  downloadFile url p st = (Ok tt, st1) -> log st1 = EvDownload url p :: log st.
Proof.
  intros url p st st1 H. unfold downloadFile in H.
  destruct (http_get w url); [|discriminate].
  destruct (locked w p); [discriminate|]. injection H as <-. reflexivity.
Qed.

Lemma unlinkSync_ok_inv : forall p st st1,
  unlinkSync p st = (Ok tt, st1) -> fs_mem p (fs st1) = false /\ log st1 = log st.
Proof.
  intros p st st1 H. unfold unlinkSync in H.
  destruct (negb (fs_mem p (fs st))); [discriminate|].
  destruct (locked w p); [discriminate|]. injection H as <-.
  split; [apply fs_mem_remove|reflexivity].
Qed.

Lemma chmodSync_ok_inv : forall p mode st st1,
  chmodSync p mode st = (Ok tt, st1) -> fs st1 = fs st /\ log st1 = EvChmod p mode :: log st.
Proof.
  intros p mode st st1 H. unfold chmodSync in H.
  destruct (fs_mem p (fs st)); [|discriminate]. injection H as <-. auto.
Qed.

Lemma silent_ok : forall {A} (m : M A) st a st1, silent m -> m st = (Ok a, st1) -> log st1 = log st.
Proof. intros A m st a st1 Hs H. exact (Hs _ _ _ H). Qed.


Lemma length_str_app : forall s t, String.length (s ++ t) = String.length s + String.length t.
Proof. induction s as [|c s IH]; intros t; simpl; [reflexivity|rewrite IH; reflexivity]. Qed.

Lemma join_longer : forall a c, String.length a < String.length (join a c).
Proof. intros a c. unfold join. rewrite !length_str_app. simpl. lia. Qed.

Lemma fs_mem_remove_other : forall p q f, q <> p -> fs_mem q (fs_remove p f) = fs_mem q f.
Proof.
  intros p q f Hne. induction f as [|[r c] f IH]; [reflexivity|].
  simpl. destruct (String.eqb_spec r p) as [->|Hrp]; simpl.
  - apply not_eq_sym, String.eqb_neq in Hne. rewrite Hne. exact IH.
  - rewrite IH. reflexivity.
Qed.

Lemma mkdirSync_ok_inv : forall p st st1,
  mkdirSync p st = (Ok tt, st1) -> forall q, q <> p -> fs_mem q (fs st1) = fs_mem q (fs st).
Proof.
  intros p st st1 H q Hne. unfold mkdirSync in H.
  destruct (fs_mem p (fs st)); [injection H as <-; reflexivity|].
  destruct (locked w p); [discriminate|]. injection H as <-. simpl.
  destruct (String.eqb_spec p q) as [->|_]; [contradiction|]. simpl.
  apply fs_mem_remove_other, Hne.
Qed.

Lemma when_mkdir_ok_inv : forall c p st st1,
  when c (mkdirSync p) st = (Ok tt, st1) ->
  log st1 = log st /\ forall q, q <> p -> fs_mem q (fs st1) = fs_mem q (fs st).
Proof.
  intros c p st st1 H. split.
  - exact (when_silent _ _ (mkdirSync_silent p) _ _ _ H).
  - apply when_ok_inv in H as [[_ H]|[_ ->]]; [exact (mkdirSync_ok_inv _ _ _ H)|reflexivity].
Qed.

Lemma neq_by_length : forall s t, String.length s < String.length t -> t <> s.
Proof. intros s t H ->. lia. Qed.

(** C5 *)
(** Claim C5: [downloadNodeBinary] returns the canonical cache path
    [cache_root/platform/version/(node|node.exe)].  On a warm cache (the
    binary and the directories above it exist) it returns that path and
    records no event, in particular no download.  On a cold cache, when
    it returns, it has downloaded exactly once, the archive file is gone,
    the binary exists at the canonical path and (for non-windows
    platforms) was given mode 755; if the binary is absent after
    extraction it therefore does not return a path but throws. *)
Theorem downloadNodeBinary_cache (platform : string) (st : St) :
  (fs_mem cacheDir (fs st) = true ->
   fs_mem (join cacheDir platform) (fs st) = true ->
   fs_mem (cachedBinaryPath platform getRecommendedNodeVersion) (fs st) = true ->
   downloadNodeBinary platform st = (Ok (cachedBinaryPath platform getRecommendedNodeVersion), st))
  /\
  (fs_mem (cachedBinaryPath platform getRecommendedNodeVersion) (fs st) = false ->
   forall x st', downloadNodeBinary platform st = (Ok x, st') ->
   x = cachedBinaryPath platform getRecommendedNodeVersion
   /\ fs_mem x (fs st') = true
   /\ fs_mem (archiveFile platform getRecommendedNodeVersion) (fs st') = false
   /\ count_downloads (log st') = S (count_downloads (log st))
   /\ (exists url, getNodeDownloadUrl getRecommendedNodeVersion platform = Ok url
        /\ In (EvDownload url (archiveFile platform getRecommendedNodeVersion)) (log st'))
   /\ (platform <> "win32" -> In (EvChmod x "755") (log st'))).
Proof.
  split.
  - intros H1 H2 H3. unfold downloadNodeBinary, bind, existsSync, when, ret.
    cbv beta iota. rewrite H1. cbv beta iota delta [negb]. rewrite H2. cbv beta iota delta [negb].
    unfold cachedBinaryPath in H3. rewrite H3. reflexivity.
  - intros Hcold x st' H. unfold downloadNodeBinary in H.
    set (v := getRecommendedNodeVersion) in *.
    set (exe := cachedBinaryPath platform v) in *.
    apply bind_ok_inv in H as (c & st1 & Hc & H). apply existsSync_inv in Hc as [-> ->].
    apply bind_ok_inv in H as ([] & st2 & Hm1 & H). apply when_mkdir_ok_inv in Hm1 as [Hl2 Hf2].
    apply bind_ok_inv in H as (d & st3 & Hd & H). apply existsSync_inv in Hd as [-> ->].
    apply bind_ok_inv in H as ([] & st4 & Hm2 & H). apply when_mkdir_ok_inv in Hm2 as [Hl4 Hf4].
    apply bind_ok_inv in H as (cached & st5 & Hx & H). apply existsSync_inv in Hx as [-> ->].
    assert (Hexe4 : fs_mem exe (fs st4) = false).
    { assert (L1 : String.length (join cacheDir platform) < String.length exe).
      { unfold exe, cachedBinaryPath, join. rewrite !length_str_app. simpl. lia. }
      assert (L0 : String.length cacheDir < String.length exe).
      { eapply Nat.lt_trans; [apply join_longer|exact L1]. }
      rewrite (Hf4 _ (neq_by_length _ _ L1)), (Hf2 _ (neq_by_length _ _ L0)). exact Hcold. }
    change (join (join (join cacheDir platform) v) (binaryName platform)) with exe in H.
    rewrite Hexe4 in H.
    apply bind_ok_inv in H as (url & st6 & Hu & H). apply lift_ok_inv in Hu as [Hurl ->].
    apply bind_ok_inv in H as ([] & st7 & Hdl & H). apply downloadFile_ok_inv in Hdl.
    apply bind_ok_inv in H as (vd & st8 & Hvd & H). apply existsSync_inv in Hvd as [-> ->].
    apply bind_ok_inv in H as ([] & st9 & Hm3 & H). apply when_mkdir_ok_inv in Hm3 as [Hl9 _].
    apply bind_ok_inv in H as ([] & st10 & Hex & H).
    pose proof (silent_ok _ _ _ _ (extractNodeBinary_silent _ _ _ _) Hex) as Hl10.
    apply bind_ok_inv in H as ([] & st11 & Hun & H). apply unlinkSync_ok_inv in Hun as [Harch Hl11].
    apply bind_ok_inv in H as (present & st12 & Hp & H). apply existsSync_inv in Hp as [-> ->].
    destruct (fs_mem exe (fs st11)) eqn:Hpres; [|discriminate H].
    simpl negb in H. cbv iota in H.
    apply bind_ok_inv in H as ([] & st13 & Hch & H). injection H as <- <-.
    assert (Hcount : forall l, count_downloads (EvChmod exe "755" :: l) = count_downloads l)
      by reflexivity.
    destruct (String.eqb_spec platform "win32") as [Hw|Hw]; simpl negb in Hch.
    + injection Hch as <-. rewrite Hl11, Hl10, Hl9, Hl2 in *. rewrite Hdl, <- Hl4.
      repeat split; auto.
      exists url. split; [exact Hurl|left; reflexivity].
      intros Hn. contradiction.
    + apply chmodSync_ok_inv in Hch as [Hfs13 Hl13]. rewrite Hfs13, Hl13.
      rewrite Hl11, Hl10, Hl9, Hdl, Hl4, Hl2.
      repeat split; auto.
      * exists url. split; [exact Hurl|right; left; reflexivity].
      * intros _. left. reflexivity.
Qed.


(* ------------------------------------------------------------------ *)
(** ** [createSeaConfig] and [verifyWindowsExecutable] *)

(** A JS object: assigning an existing key keeps its place, a new key
    goes last. *)
Definition obj_set (k : string) (v : json) (o : list (string * json)) : list (string * json) :=
  if existsb (fun e => String.eqb (fst e) k) o
  then map (fun e => if String.eqb (fst e) k then (k, v) else e) o
  else o ++ [(k, v)].

Definition obj_get (k : string) (o : list (string * json)) : option json :=
  option_map snd (find (fun e => String.eqb (fst e) k) o).

Definition tempBuildDir : string := join (tempDir (options b)) (buildId b).

Definition assets_json (a : list (string * string)) : json :=
  JObj (map (fun e => (fst e, JStr (snd e))) a).

(** The object [createSeaConfig] serialises. *)
Definition sea_config (platform : string) : list (string * json) :=
  let o := options b in
  let config :=
    [("main", JStr (main o));
     ("output", JStr (join tempBuildDir ("sea-prep-" ++ platform ++ ".blob")));
     ("disableExperimentalSEAWarning", JBool (disableExperimentalSEAWarning o));
     ("useSnapshot", JBool (useSnapshot o));
     ("useCodeCache", JBool (useCodeCache o))] in
  let config :=
    if negb (String.eqb platform (host_platform w))
    then obj_set "useCodeCache" (JBool false) (obj_set "useSnapshot" (JBool false) config)
    else config in
  if 0 <? length (assets o) then obj_set "assets" (assets_json (assets o)) config
  else config.

Definition createSeaConfig (platform : string) : M string :=
  let config := sea_config platform in
  let configPath :=
    join tempBuildDir ("sea-config-" ++ platform ++ "-" ++ buildId b ++ ".json") in
  writeFileSync configPath (JObj config) ;;;
  ret configPath.

Definition replBanner1 : string := "Welcome to Node.js".
Definition replBanner2 : string := "Type " ++ dq ++ ".help" ++ dq.

Definition verifyCommand (executableName : string) : string :=
  quote (path_resolve (cwd w) executableName) ++ " --help".

Definition replError : string :=
  "Windows executable is still in REPL mode - blob injection failed".

Definition verifyWindowsExecutable (executableName : string) : M unit :=
  catch
    (result <- execSync (verifyCommand executableName) (Some 5000) ;;
     if includes result replBanner1 || includes result replBanner2
     then throw replError
     else ret tt)
    (fun message => if includes message "REPL mode" then throw message else ret tt).

Lemma obj_get_set_same : forall k v o, obj_get k (obj_set k v o) = Some v.
Proof.
  intros k v o. unfold obj_get, obj_set.
  destruct (existsb (fun e => String.eqb (fst e) k) o) eqn:E.
  - induction o as [|[k' v'] o IH]; [discriminate|]. simpl in *.
    destruct (String.eqb_spec k' k) as [->|Hne]; simpl.
    + rewrite String.eqb_refl. reflexivity.
    + apply String.eqb_neq in Hne. rewrite Hne. apply IH, E.
  - induction o as [|[k' v'] o IH]; simpl in *.
    + rewrite String.eqb_refl. reflexivity.
    + apply orb_false_iff in E as [E1 E2]. rewrite E1. apply IH, E2.
Qed.

Lemma obj_get_set_other : forall k k' v o, k' <> k -> obj_get k' (obj_set k v o) = obj_get k' o.
Proof.
  intros k k' v o Hne. unfold obj_get, obj_set.
  assert (Hkk : String.eqb k k' = false) by (apply String.eqb_neq; auto).
  destruct (existsb (fun e => String.eqb (fst e) k) o) eqn:E.
  - clear E. induction o as [|[k1 v1] o IH]; [reflexivity|]. simpl.
    destruct (String.eqb_spec k1 k) as [->|Hne1]; simpl.
    + rewrite Hkk. exact IH.
    + destruct (String.eqb k1 k'); [reflexivity|exact IH].
  - clear E. induction o as [|[k1 v1] o IH]; simpl; [rewrite Hkk; reflexivity|].
    destruct (String.eqb k1 k'); [reflexivity|exact IH].
Qed.

(** C6 *)
(** Claim C6: the object [createSeaConfig] writes has useSnapshot and
    useCodeCache false when the target differs from the host, carries
    the option values when the target is the host, and has an "assets"
    key exactly when the asset map is non-empty. *)
Theorem createSeaConfig_flags (platform : string) (st st' : St) (configPath : string)
  (H : createSeaConfig platform st = (Ok configPath, st')) :
  exists fields,
    log st' = EvWrite configPath (JObj fields) :: log st
    /\ (platform <> host_platform w ->
        obj_get "useSnapshot" fields = Some (JBool false)
        /\ obj_get "useCodeCache" fields = Some (JBool false))
    /\ (platform = host_platform w ->
        obj_get "useSnapshot" fields = Some (JBool (useSnapshot (options b)))
        /\ obj_get "useCodeCache" fields = Some (JBool (useCodeCache (options b))))
    /\ (obj_get "assets" fields <> None <-> assets (options b) <> []).
Proof.
  unfold createSeaConfig, bind, writeFileSync, ret in H.
  destruct (locked w _); [discriminate|]. injection H as <- <-.
  exists (sea_config platform). split; [reflexivity|].
  unfold sea_config.
  set (cfg0 := [("main", JStr (main (options b)));
                ("output", JStr (join tempBuildDir ("sea-prep-" ++ platform ++ ".blob")));
                ("disableExperimentalSEAWarning",
                  JBool (disableExperimentalSEAWarning (options b)));
                ("useSnapshot", JBool (useSnapshot (options b)));
                ("useCodeCache", JBool (useCodeCache (options b)))]).
  assert (Hget : forall cfg k, k <> "assets" ->
            obj_get k (if 0 <? length (assets (options b))
                       then obj_set "assets" (assets_json (assets (options b))) cfg
                       else cfg) = obj_get k cfg).
  { intros cfg k Hk. destruct (0 <? length _); [apply obj_get_set_other; congruence|reflexivity]. }
  split; [|split].
  - intros Hne. apply String.eqb_neq in Hne. rewrite Hne. simpl negb. cbv iota.
    rewrite !Hget by discriminate.
    rewrite obj_get_set_same, obj_get_set_other, obj_get_set_same by discriminate.
    auto.
  - intros ->. rewrite String.eqb_refl. simpl negb. cbv iota.
    rewrite !Hget by discriminate. auto.
  - destruct (assets (options b)) as [|a rest] eqn:Ea; simpl.
    + split; intros Hn; exfalso; [|apply Hn; reflexivity].
      revert Hn. destruct (negb _); [rewrite !obj_get_set_other by discriminate|];
      intros Hn; apply Hn; reflexivity.
    + rewrite obj_get_set_same. split; intros _; discriminate.
Qed.

(** C3 *)
(** Claim C3, as the code behaves: [verifyWindowsExecutable] runs the
    executable with --help under a 5000 ms timeout.  When the run
    completes, it throws the REPL-mode error exactly when the output holds
    "Welcome to Node.js" or 'Type ".help"'; when the run itself fails
    (a timeout or a non-zero exit) the failure is swallowed and
    verification succeeds, unless the failure message mentions
    "REPL mode". *)
Theorem verifyWindowsExecutable_outcome (executableName : string) (st : St) :
  (forall out f', exec w (verifyCommand executableName) (Some 5000) (fs st) = (Ok out, f') ->
     fst (verifyWindowsExecutable executableName st)
     = if includes out replBanner1 || includes out replBanner2 then Err replError else Ok tt)
  /\ (forall message f', exec w (verifyCommand executableName) (Some 5000) (fs st) = (Err message, f') ->
     fst (verifyWindowsExecutable executableName st)
     = if includes message "REPL mode" then Err message else Ok tt)
  /\ In (EvExec (verifyCommand executableName) (Some 5000))
        (log (snd (verifyWindowsExecutable executableName st))).
Proof.
  unfold verifyWindowsExecutable, catch, bind, execSync.
  destruct (exec w (verifyCommand executableName) (Some 5000) (fs st)) as [[out|m] f'] eqn:E.
  - split; [|split].
    + intros out' f'' H. injection H as <- <-.
      destruct (includes out replBanner1 || includes out replBanner2).
      * unfold throw. assert (Hr : includes replError "REPL mode" = true) by reflexivity.
        rewrite Hr. reflexivity.
      * reflexivity.
    + intros m f'' H. discriminate H.
    + destruct (includes out replBanner1 || includes out replBanner2).
      * unfold throw. destruct (includes replError "REPL mode"); left; reflexivity.
      * left. reflexivity.
  - split; [|split].
    + intros out f'' H. discriminate H.
    + intros m' f'' H. injection H as <- <-.
      destruct (includes m "REPL mode"); reflexivity.
    + destruct (includes m "REPL mode"); left; reflexivity.
Qed.


(* ------------------------------------------------------------------ *)
(** ** The per-platform pipeline and [build] *)

Inductive BuildResult : Type :=
| BRok (platform executable path buildId : string)      (* success: true *)
| BRfail (platform error : string).                      (* success: false *)

Definition br_platform (r : BuildResult) : string :=
  match r with BRok p _ _ _ => p | BRfail p _ => p end.
Definition br_success (r : BuildResult) : bool :=
  match r with BRok _ _ _ _ => true | BRfail _ _ => false end.

Definition generateBlob (configPath : string) : M unit :=
  catch (execSync (quote (execPath w) ++ " --experimental-sea-config " ++ configPath) None ;;;
         ret tt)
        (fun message => throw ("Failed to generate blob: " ++ message)).

Definition createExecutable (platform executableName : string) : M unit :=
  nodePath <- (if String.eqb platform (host_platform w) then ret (execPath w)
               else downloadNodeBinary platform) ;;
  let executableName :=
    if String.eqb platform "win32" && negb (endsWith executableName ".exe")
    then executableName ++ ".exe" else executableName in
  catch (copyFileSync nodePath executableName)
        (fun message => throw ("Failed to copy Node.js executable from '" ++ nodePath
                               ++ "' to '" ++ executableName ++ "': " ++ message)) ;;;
  when (String.eqb platform "darwin")
    (catch (execSync ("codesign --remove-signature " ++ quote executableName) None ;;; ret tt)
           (fun _ => ret tt)) ;;;
  when (String.eqb platform "win32")
    (catch (execSync ("signtool remove /s " ++ quote executableName) None ;;; ret tt)
           (fun _ => ret tt)).

Definition sentinelFuse : string := "NODE_SEA_FUSE_fce680ab2cc467b6e072b8b5df1996b2".

Definition injectBlob (platform executableName blobPath : string) : M unit :=
  let command :=
    if String.eqb platform "darwin"
    then "npx postject " ++ quote executableName ++ " NODE_SEA_BLOB " ++ quote blobPath
         ++ " --sentinel-fuse " ++ sentinelFuse ++ " --macho-segment-name NODE_SEA"
    else "npx postject " ++ quote executableName ++ " NODE_SEA_BLOB " ++ quote blobPath
         ++ " --sentinel-fuse " ++ sentinelFuse in
  catch (execSync command None ;;;
         when (String.eqb platform "win32") (verifyWindowsExecutable executableName))
        (fun message => throw ("Failed to inject blob: " ++ message)).

Definition signExecutable (platform executableName : string) : M unit :=
  catch (if String.eqb platform "darwin"
         then execSync ("codesign --sign - " ++ quote executableName) None ;;; ret tt
         else if String.eqb platform "win32"
         then execSync ("signtool sign /fd SHA256 " ++ quote executableName) None ;;; ret tt
         else ret tt)
        (fun _ => ret tt).

(** [cleanup(files)]: each removal is attempted on its own, failures are
    only warned about. *)
Fixpoint cleanup (files : list string) : M unit :=
  match files with
  | [] => ret tt
  | file :: rest =>
      catch (e <- existsSync file ;; when e (unlinkSync file)) (fun _ => ret tt) ;;;
      cleanup rest
  end.

Definition blobPathOf (platform : string) : string :=
  join tempBuildDir ("sea-prep-" ++ platform ++ ".blob").

Definition buildForPlatform (platform : string) : M BuildResult :=
  configPath <- createSeaConfig platform ;;
  let blobPath := blobPathOf platform in
  let executableName := getExecutableName (options b) platform in
  catch (generateBlob configPath ;;;
         createExecutable platform executableName ;;;
         injectBlob platform executableName blobPath ;;;
         when (String.eqb platform "darwin" || String.eqb platform "win32")
           (signExecutable platform executableName) ;;;
         cleanup [configPath; blobPath] ;;;
         ret (BRok platform executableName (path_resolve (cwd w) executableName) (buildId b)))
        (fun message => cleanup [configPath; blobPath] ;;; throw message).

Definition cleanupTempDir : M unit :=
  catch (e <- existsSync tempBuildDir ;; when e (rmSync tempBuildDir)) (fun _ => ret tt).

(** [try { ... } catch (error) { ... }] around one platform. *)
Definition attempt {A} (m : M A) : M (res A) :=
  fun st => let '(r, st') := m st in (Ok r, st').

Fixpoint build_loop (ps : list string) : M (list BuildResult) :=
  match ps with
  | [] => ret []
  | platform :: rest =>
      r <- attempt (buildForPlatform platform) ;;
      let result := match r with
                    | Ok result => result
                    | Err message => BRfail platform message
                    end in
      results <- build_loop rest ;;
      ret (result :: results)
  end.

Definition build : M (list BuildResult) :=
  finally (build_loop (platforms (options b))) cleanupTempDir.


(** *** Lemmas on the pipeline *)

(** Every value an action can return satisfies [P]. *)
Definition returns_only {A} (P : A -> Prop) (m : M A) : Prop :=
  forall st a st', m st = (Ok a, st') -> P a.

Lemma ret_returns : forall {A} (P : A -> Prop) a, P a -> returns_only P (ret a).
Proof. intros A P a Ha st x st' H. injection H as <- _. exact Ha. Qed.

Lemma throw_returns : forall {A} (P : A -> Prop) e, returns_only P (throw e).
Proof. intros A P e st x st' H. discriminate H. Qed.

Lemma bind_returns : forall {A B} (P : B -> Prop) (m : M A) (k : A -> M B),
  (forall x, returns_only P (k x)) -> returns_only P (bind m k).
Proof.
  intros A B P m k Hk st x st' H. unfold bind in H.
  destruct (m st) as [[y|e] s] eqn:E; [exact (Hk _ _ _ _ H)|discriminate H].
Qed.

Lemma catch_returns : forall {A} (P : A -> Prop) (m : M A) h,
  returns_only P m -> (forall e, returns_only P (h e)) -> returns_only P (catch m h).
Proof.
  intros A P m h Hm Hh st x st' H. unfold catch in H.
  destruct (m st) as [[y|e] s] eqn:E.
  - injection H as -> ->. exact (Hm _ _ _ E).
  - exact (Hh _ _ _ _ H).
Qed.

Lemma buildForPlatform_platform : forall p st r st',
  buildForPlatform p st = (Ok r, st') -> br_platform r = p.
Proof.
  intros p st r st' H. revert st r st' H. fold (returns_only (fun r => br_platform r = p) (buildForPlatform p)).
  unfold buildForPlatform. apply bind_returns; intros cp. cbv zeta.
  apply catch_returns.
  - repeat (apply bind_returns; intros ?). apply ret_returns. reflexivity.
  - intros e. apply bind_returns; intros ?. apply throw_returns.
Qed.

(** The per-platform outcomes of a run of the loop, one per platform. *)
Inductive build_trace : list string -> St -> list BuildResult -> St -> Prop :=
| bt_nil : forall st, build_trace [] st [] st
| bt_ok : forall p ps st st1 r rs st',
    buildForPlatform p st = (Ok r, st1) ->
    build_trace ps st1 rs st' -> build_trace (p :: ps) st (r :: rs) st'
| bt_err : forall p ps st st1 m rs st',
    buildForPlatform p st = (Err m, st1) ->
    build_trace ps st1 rs st' -> build_trace (p :: ps) st (BRfail p m :: rs) st'.

Lemma build_loop_trace : forall ps st,
  exists results, build_loop ps st = (Ok results, snd (build_loop ps st))
    /\ build_trace ps st results (snd (build_loop ps st))
    /\ map br_platform results = ps.
Proof.
  induction ps as [|p ps IH]; intros st.
  - exists []. split; [reflexivity|]. split; [constructor|reflexivity].
  - simpl build_loop. unfold bind, attempt, ret.
    destruct (buildForPlatform p st) as [[r|m] st1] eqn:Hp.
    + destruct (IH st1) as (rs & Hrs & Htr & Hmap).
      exists (r :: rs). rewrite Hrs. simpl.
      split; [reflexivity|]. split; [eapply bt_ok; eauto|].
      simpl. rewrite (buildForPlatform_platform _ _ _ _ Hp), Hmap. reflexivity.
    + destruct (IH st1) as (rs & Hrs & Htr & Hmap).
      exists (BRfail p m :: rs). rewrite Hrs. simpl.
      split; [reflexivity|]. split; [eapply bt_err; eauto|].
      simpl. rewrite Hmap. reflexivity.
Qed.

Lemma cleanupTempDir_ok : forall st, fst (cleanupTempDir st) = Ok tt.
Proof.
  intros st. unfold cleanupTempDir, catch, bind, existsSync, when, ret.
  destruct (fs_mem tempBuildDir (fs st)); [|reflexivity].
  destruct (rmSync tempBuildDir st) as [[[]|e] s]; reflexivity.
Qed.

(** One step of [cleanup] on the state. *)
Definition cleanup1 (st : St) (f : string) : St :=
  if fs_mem f (fs st) && negb (locked w f) then set_fs (fs_remove f (fs st)) st else st.

Lemma cleanup_eq : forall files st,
  cleanup files st = (Ok tt, fold_left cleanup1 files st).
Proof.
  induction files as [|f rest IH]; intros st; [reflexivity|].
  simpl cleanup. unfold bind at 1, catch, bind, existsSync, when, unlinkSync, ret.
  simpl fold_left. unfold cleanup1 at 2.
  destruct (fs_mem f (fs st)) eqn:E1; [destruct (locked w f) eqn:E2|]; simpl;
    rewrite ?E1, ?E2; simpl; apply IH.
Qed.

Lemma fs_mem_remove_absent : forall p q f,
  fs_mem q f = false -> fs_mem q (fs_remove p f) = false.
Proof.
  intros p q f H. destruct (String.eqb_spec q p) as [->|Hne].
  - apply fs_mem_remove.
  - rewrite fs_mem_remove_other by exact Hne. exact H.
Qed.

Lemma cleanup1_absent : forall q st f,
  fs_mem q (fs st) = false -> fs_mem q (fs (cleanup1 st f)) = false.
Proof.
  intros q st f H. unfold cleanup1.
  destruct (fs_mem f (fs st) && negb (locked w f)); [apply fs_mem_remove_absent|]; exact H.
Qed.

Lemma fold_cleanup1_absent : forall q files st,
  fs_mem q (fs st) = false -> fs_mem q (fs (fold_left cleanup1 files st)) = false.
Proof.
  intros q files. induction files as [|f rest IH]; intros st H; [exact H|].
  simpl. apply IH, cleanup1_absent, H.
Qed.

Lemma cleanup1_removes : forall st f,
  locked w f = false -> fs_mem f (fs (cleanup1 st f)) = false.
Proof.
  intros st f Hl. unfold cleanup1. rewrite Hl.
  destruct (fs_mem f (fs st)) eqn:E; simpl; [apply fs_mem_remove|exact E].
Qed.

Lemma fold_cleanup1_removes : forall files st f,
  In f files -> locked w f = false -> fs_mem f (fs (fold_left cleanup1 files st)) = false.
Proof.
  induction files as [|g rest IH]; intros st f Hin Hl; [destruct Hin|].
  simpl. destruct Hin as [<-|Hin].
  - apply fold_cleanup1_absent, cleanup1_removes, Hl.
  - apply IH; assumption.
Qed.

(** [m] either fails, or succeeds in a state left by [cleanup files]. *)
Definition settles (files : list string) {A} (m : M A) : Prop :=
  forall st r st', m st = (r, st') ->
    (exists e, r = Err e) \/ (exists st0, st' = snd (cleanup files st0)).

(** [m] always ends in a state left by [cleanup files]. *)
Definition ends_cleaned (files : list string) {A} (m : M A) : Prop :=
  forall st r st', m st = (r, st') -> exists st0, st' = snd (cleanup files st0).

Lemma bind_settles : forall files {A B} (m : M A) (k : A -> M B),
  (forall x, settles files (k x)) -> settles files (bind m k).
Proof.
  intros files A B m k Hk st r st' H. unfold bind in H.
  destruct (m st) as [[y|e] s] eqn:E; [exact (Hk _ _ _ _ H)|].
  injection H as <- <-. left. exists e. reflexivity.
Qed.

Lemma cleanup_ret_settles : forall files {A} (v : A),
  settles files (cleanup files ;;; ret v).
Proof.
  intros files A v st r st' H. right. exists st. unfold bind in H.
  rewrite cleanup_eq in H. rewrite cleanup_eq. injection H as _ <-. reflexivity.
Qed.

Lemma cleanup_throw_ends_cleaned : forall files {A} e,
  ends_cleaned files (cleanup files ;;; (throw e : M A)).
Proof.
  intros files A e st r st' H. exists st. unfold bind in H.
  rewrite cleanup_eq in H. rewrite cleanup_eq. injection H as _ <-. reflexivity.
Qed.

Lemma catch_ends_cleaned : forall files {A} (m : M A) h,
  settles files m -> (forall e, ends_cleaned files (h e)) -> ends_cleaned files (catch m h).
Proof.
  intros files A m h Hm Hh st r st' H. unfold catch in H.
  destruct (m st) as [[y|e] s] eqn:E.
  - injection H as _ <-. destruct (Hm _ _ _ E) as [[e He]|Hc]; [discriminate He|exact Hc].
  - exact (Hh _ _ _ _ H).
Qed.

Lemma buildForPlatform_cleaned : forall p st cp st1 r st',
  createSeaConfig p st = (Ok cp, st1) ->
  buildForPlatform p st = (r, st') ->
  exists st0, st' = snd (cleanup [cp; blobPathOf p] st0).
Proof.
  intros p st cp st1 r st' Hc H. unfold buildForPlatform, bind at 1 in H. rewrite Hc in H.
  cbv zeta in H. revert H. apply catch_ends_cleaned.
  - do 4 (apply bind_settles; intros ?). apply cleanup_ret_settles.
  - intros e. apply cleanup_throw_ends_cleaned.
Qed.

Lemma existsb_filter_false : forall {A} (f g : A -> bool) l,
  (forall x, In x l -> g x = true -> f x = false) ->
  existsb f (filter g l) = false.
Proof.
  intros A f g l. induction l as [|x l IH]; intros H; [reflexivity|].
  simpl. destruct (g x) eqn:Eg; simpl.
  - rewrite (H x (or_introl eq_refl) Eg). apply IH. intros y Hy. apply H. right. exact Hy.
  - apply IH. intros y Hy. apply H. right. exact Hy.
Qed.

Lemma cleanupTempDir_removes : forall st,
  (forall l, under tempBuildDir l = true -> locked w l = false) ->
  fs_mem tempBuildDir (fs (snd (cleanupTempDir st))) = false.
Proof.
  intros st Hl. unfold cleanupTempDir, catch, bind, existsSync, when, ret.
  destruct (fs_mem tempBuildDir (fs st)) eqn:E; [|exact E].
  unfold rmSync.
  assert (Hb : existsb (fun e => under tempBuildDir (fst e) && locked w (fst e)) (fs st) = false).
  { clear E. induction (fs st) as [|e l IH]; [reflexivity|]. simpl.
    destruct (under tempBuildDir (fst e)) eqn:U; [rewrite (Hl _ U)|]; exact IH. }
  rewrite Hb. simpl. unfold fs_mem. apply existsb_filter_false.
  intros e _ Hg. apply String.eqb_neq. intros Heq. rewrite Heq in Hg.
  assert (Hu : under tempBuildDir tempBuildDir = true)
    by (unfold under; rewrite String.eqb_refl; reflexivity).
  rewrite Hu, Hb in Hg. discriminate Hg.
Qed.


(** C1: [build()] returns a value, never an error: one result per
    requested platform, in the requested order. The results come from
    running [buildForPlatform] on each platform in turn, from the state the
    previous platform left; a platform whose pipeline throws [m] is recorded
    as [{platform, success: false, error: m}] and the loop goes on. *)
Theorem build_one_result_per_platform (st : St) :
  exists results st1,
    build st = (Ok results, snd (cleanupTempDir st1))
    /\ build_trace (platforms (options b)) st results st1
    /\ map br_platform results = platforms (options b).
Proof.
  destruct (build_loop_trace (platforms (options b)) st) as (rs & H1 & H2 & H3).
  exists rs, (snd (build_loop (platforms (options b)) st)).
  split; [|split; assumption].
  unfold build, finally. rewrite H1 at 1.
  pose proof (cleanupTempDir_ok (snd (build_loop (platforms (options b)) st))) as Hc.
  destruct (cleanupTempDir (snd (build_loop (platforms (options b)) st))) as [[u|e] s].
  - reflexivity.
  - discriminate Hc.
Qed.

(** C2 (amended): [cleanup(files)] never throws, and afterwards every listed
    file that is not locked is absent. Once [createSeaConfig] has
    succeeded, [buildForPlatform] ends, on success and on failure alike,
    with [cleanup([configPath, blobPath])], so these two files are absent
    afterwards unless locked. (A failing [createSeaConfig] runs outside the
    [try] and propagates without any cleanup.) After [build()] the
    directory [tempDir/buildId] is gone only if nothing under it is locked;
    a failing [rmSync] is swallowed by [cleanupTempDir]. *)
Theorem build_cleanup_teardown :
  (forall files st,
     fst (cleanup files st) = Ok tt
     /\ (forall f, In f files -> locked w f = false ->
           fs_mem f (fs (snd (cleanup files st))) = false))
  /\ (forall platform st configPath st1 r st',
        createSeaConfig platform st = (Ok configPath, st1) ->
        buildForPlatform platform st = (r, st') ->
        (locked w configPath = false -> fs_mem configPath (fs st') = false)
        /\ (locked w (blobPathOf platform) = false ->
            fs_mem (blobPathOf platform) (fs st') = false))
  /\ (forall st r st',
        build st = (r, st') ->
        (forall l, under tempBuildDir l = true -> locked w l = false) ->
        fs_mem tempBuildDir (fs st') = false).
Proof.
  split; [|split].
  - intros files st. rewrite cleanup_eq. split; [reflexivity|].
    intros f Hin Hl. apply fold_cleanup1_removes; assumption.
  - intros platform st configPath st1 r st' Hc H.
    destruct (buildForPlatform_cleaned _ _ _ _ _ _ Hc H) as [st0 ->].
    rewrite cleanup_eq. unfold snd at 1.
    split; intros Hl; apply fold_cleanup1_removes; simpl; auto.
  - intros st r st' H Hl. unfold build, finally in H.
    destruct (build_loop (platforms (options b)) st) as [r0 st1].
    pose proof (cleanupTempDir_removes st1 Hl) as Hrm.
    destruct (cleanupTempDir st1) as [[u|e] s]; injection H as _ <-; exact Hrm.
Qed.

(* ------------------------------------------------------------------ *)
(** ** The rest of the class *)

(** [static getSupportedPlatforms()] *)
Definition getSupportedPlatforms : list string := ["linux"; "darwin"; "win32"].

(** [generateBuildId()]: [`build-${Date.now()}-${crypto.randomBytes(4).toString('hex')}`],
    with the clock reading and the random bytes as inputs. [Date.now()] is
    an integer, printed in decimal. *)
Fixpoint string_of_uint (d : Decimal.uint) : string :=
  match d with
  | Decimal.Nil => EmptyString
  | Decimal.D0 d => String "0"%char (string_of_uint d)
  | Decimal.D1 d => String "1"%char (string_of_uint d)
  | Decimal.D2 d => String "2"%char (string_of_uint d)
  | Decimal.D3 d => String "3"%char (string_of_uint d)
  | Decimal.D4 d => String "4"%char (string_of_uint d)
  | Decimal.D5 d => String "5"%char (string_of_uint d)
  | Decimal.D6 d => String "6"%char (string_of_uint d)
  | Decimal.D7 d => String "7"%char (string_of_uint d)
  | Decimal.D8 d => String "8"%char (string_of_uint d)
  | Decimal.D9 d => String "9"%char (string_of_uint d)
  end.

Definition hex_chars : string := "0123456789abcdef".

Definition hex_digit (n : nat) : ascii := nth n (list_ascii_of_string hex_chars) "0"%char.

(** [Buffer.prototype.toString('hex')]: two lower-case digits per byte. *)
Definition byte_hex (x : Byte.byte) : string :=
  let n := Byte.to_nat x in
  String (hex_digit (n / 16)) (String (hex_digit (n mod 16)) EmptyString).

Fixpoint hex_of_bytes (bytes : list Byte.byte) : string :=
  match bytes with
  | [] => EmptyString
  | x :: rest => byte_hex x ++ hex_of_bytes rest
  end.

Definition generateBuildId (timestamp : nat) (random : list Byte.byte) : string :=
  "build-" ++ string_of_uint (Nat.to_uint timestamp) ++ "-" ++ hex_of_bytes random.

Definition is_hex (c : ascii) : bool := existsb (Ascii.eqb c) (list_ascii_of_string hex_chars).

(** JS values, for the options object the constructor receives. *)
Inductive jsval : Type :=
| JSUndefined
| JSNull
| JSBool (x : bool)
| JSNumber (n : jsnum)
| JSString (s : string)
| JSArray (l : list jsval)
| JSObject (l : list (string * jsval)).

Definition jsobj : Type := list (string * jsval).

(** JS truthiness, for [a || b]. *)
Definition truthy (v : jsval) : bool :=
  match v with
  | JSUndefined | JSNull => false
  | JSBool x => x
  | JSNumber JNaN => false
  | JSNumber (JNum q) => negb (Qeq_bool q 0)
  | JSNumber _ => true
  | JSString s => negb (String.eqb s EmptyString)
  | JSArray _ | JSObject _ => true
  end.

Definition js_or (a c : jsval) : jsval := if truthy a then a else c.

(** [o[k]] on an object with own properties [o]. *)
Definition prop (o : jsobj) (k : string) : jsval :=
  match find (fun e => String.eqb (fst e) k) o with
  | Some e => snd e
  | None => JSUndefined
  end.

Definition has_own (o : jsobj) (k : string) : bool := existsb (fun e => String.eqb (fst e) k) o.

(** [o[k] = v]: an existing key keeps its place, a new one goes last. *)
Definition jsobj_set (k : string) (v : jsval) (o : jsobj) : jsobj :=
  if has_own o k then map (fun e => if String.eqb (fst e) k then (k, v) else e) o
  else app o [(k, v)].

(** [{ ...target, ...src }]: the own properties of [src] copied in order. *)
Definition spread (target src : jsobj) : jsobj :=
  fold_left (fun acc e => jsobj_set (fst e) (snd e) acc) src target.

(** [this.options] as the constructor builds it from [options] ([{}] when
    omitted) and [os.tmpdir()]. *)
Definition constructor_options (options : jsobj) (tmpdir : string) : jsobj :=
  spread
    [("main", js_or (prop options "main") (JSString "index.js"));
     ("output", js_or (prop options "output") (JSString "app"));
     ("disableExperimentalSEAWarning",
        js_or (prop options "disableExperimentalSEAWarning") (JSBool true));
     ("useSnapshot", js_or (prop options "useSnapshot") (JSBool false));
     ("useCodeCache", js_or (prop options "useCodeCache") (JSBool false));
     ("assets", js_or (prop options "assets") (JSObject []));
     ("platforms", js_or (prop options "platforms")
                     (JSArray [JSString "linux"; JSString "darwin"; JSString "win32"]));
     ("tempDir", js_or (prop options "tempDir") (JSString (join tmpdir "node-package-builder")))]
    options.

(** *** Lemmas *)

Lemma js_gt_irrefl : forall x, js_gt x x = false.
Proof.
  intros [|q| |]; try reflexivity. simpl. apply negb_false_iff, Qle_bool_iff, Qle_refl.
Qed.

Lemma vge_loop_refl : forall k i cs, vge_loop cs cs i k = true.
Proof.
  induction k as [|k IH]; intros i cs; [reflexivity|].
  cbn [vge_loop]. unfold js_lt. rewrite js_gt_irrefl. apply IH.
Qed.

Lemma vge_loop_swap : forall k i cs rs,
  vge_loop cs rs i k = false -> vge_loop rs cs i k = true.
Proof.
  induction k as [|k IH]; intros i cs rs H; [discriminate H|].
  cbn [vge_loop] in *. unfold js_lt in *.
  destruct (js_gt (or0 (nth_error cs i)) (or0 (nth_error rs i))) eqn:E1; [discriminate H|].
  destruct (js_gt (or0 (nth_error rs i)) (or0 (nth_error cs i))) eqn:E2; [reflexivity|].
  apply IH, H.
Qed.

Lemma getNodeDownloadUrl_unsupported_err : forall version platform,
  ~ In platform getSupportedPlatforms ->
  getNodeDownloadUrl version platform = Err ("Unsupported platform: " ++ platform).
Proof.
  intros version platform Hn. unfold getNodeDownloadUrl.
  destruct (String.eqb_spec platform "win32") as [->|_]; [exfalso; apply Hn; simpl; tauto|].
  destruct (String.eqb_spec platform "darwin") as [->|_]; [exfalso; apply Hn; simpl; tauto|].
  destruct (String.eqb_spec platform "linux") as [->|_]; [exfalso; apply Hn; simpl; tauto|].
  reflexivity.
Qed.

Lemma string_of_uint_digits : forall d,
  forallb is_digit (list_ascii_of_string (string_of_uint d)) = true.
Proof. induction d; simpl; try rewrite IHd; reflexivity. Qed.

Lemma to_uint_not_nil : forall n, string_of_uint (Nat.to_uint n) <> EmptyString.
Proof.
  intros n. destruct (Nat.to_uint n) eqn:E; simpl; try discriminate.
  pose proof (DecimalNat.Unsigned.of_to n) as Hn. rewrite E in Hn. simpl in Hn.
  subst n. discriminate E.
Qed.

Lemma list_ascii_of_string_app : forall s t,
  list_ascii_of_string (s ++ t) = app (list_ascii_of_string s) (list_ascii_of_string t).
Proof. induction s as [|c s IH]; intros t; simpl; [reflexivity|rewrite IH; reflexivity]. Qed.

Lemma is_hex_digit : forall n, is_hex (hex_digit n) = true.
Proof.
  intros n. unfold is_hex, hex_digit.
  destruct (nth_in_or_default n (list_ascii_of_string hex_chars) "0"%char) as [Hin|Hd].
  - apply existsb_exists. exists (nth n (list_ascii_of_string hex_chars) "0"%char).
    split; [exact Hin|apply Ascii.eqb_refl].
  - rewrite Hd. reflexivity.
Qed.

Lemma hex_of_bytes_hex : forall l,
  forallb is_hex (list_ascii_of_string (hex_of_bytes l)) = true
  /\ String.length (hex_of_bytes l) = 2 * length l.
Proof.
  induction l as [|x l [IH1 IH2]]; [split; reflexivity|].
  simpl. rewrite !is_hex_digit. simpl. rewrite IH1, IH2. split; [reflexivity|lia].
Qed.

Lemma prop_absent : forall o k, has_own o k = false -> prop o k = JSUndefined.
Proof.
  intros o k H. unfold prop. induction o as [|[k' v'] o IH]; [reflexivity|].
  simpl in *. apply orb_false_iff in H as [H1 H2]. rewrite H1. apply IH, H2.
Qed.

Lemma prop_cons : forall k' v' o k,
  prop ((k', v') :: o) k = if String.eqb k' k then v' else prop o k.
Proof. intros. unfold prop. simpl. destruct (String.eqb k' k); reflexivity. Qed.

Lemma prop_app_absent : forall o k v k', String.eqb k k' = false ->
  prop (app o [(k, v)]) k' = prop o k'.
Proof.
  intros o k v k' H. induction o as [|[a x] o IH].
  - simpl. rewrite prop_cons, H. reflexivity.
  - simpl. rewrite !prop_cons, IH. reflexivity.
Qed.

Lemma prop_map_other : forall k v o k', String.eqb k k' = false ->
  prop (map (fun e => if String.eqb (fst e) k then (k, v) else e) o) k' = prop o k'.
Proof.
  intros k v o k' H. induction o as [|[a x] o IH]; [reflexivity|].
  simpl map. destruct (String.eqb_spec a k) as [->|Hne]; rewrite !prop_cons, IH;
    [rewrite H|]; reflexivity.
Qed.

Lemma prop_jsobj_set : forall k v o k',
  prop (jsobj_set k v o) k' = if String.eqb k k' then v else prop o k'.
Proof.
  intros k v o k'. unfold jsobj_set.
  destruct (has_own o k) eqn:Hk.
  - destruct (String.eqb k k') eqn:E; [|apply prop_map_other, E].
    apply String.eqb_eq in E. subst k'.
    induction o as [|[a x] o IH]; [discriminate Hk|].
    simpl map. destruct (String.eqb_spec a k) as [->|Hne].
    + rewrite prop_cons, String.eqb_refl. reflexivity.
    + rewrite prop_cons. apply String.eqb_neq in Hne. rewrite Hne. apply IH.
      simpl in Hk. rewrite Hne in Hk. exact Hk.
  - destruct (String.eqb k k') eqn:E.
    + apply String.eqb_eq in E. subst k'.
      induction o as [|[a x] o IH]; [simpl; rewrite prop_cons, String.eqb_refl; reflexivity|].
      simpl in Hk. apply orb_false_iff in Hk as [H1 H2].
      simpl. rewrite prop_cons, H1. apply IH, H2.
    + apply prop_app_absent, E.
Qed.

Lemma prop_spread : forall src target k, NoDup (map fst src) ->
  prop (spread target src) k = if has_own src k then prop src k else prop target k.
Proof.
  induction src as [|[k' v'] src IH]; intros target k Hnd; [reflexivity|].
  simpl in Hnd. inversion Hnd as [|? ? Hnin Hnd']; subst.
  unfold spread. simpl fold_left. fold (spread (jsobj_set k' v' target) src).
  rewrite IH by exact Hnd'. rewrite prop_jsobj_set, prop_cons. simpl has_own.
  destruct (String.eqb_spec k' k) as [->|Hne]; simpl.
  - destruct (has_own src k) eqn:Hs; [|reflexivity].
    exfalso. apply Hnin. unfold has_own in Hs. apply existsb_exists in Hs as ([a x] & Hin & Ha).
    apply String.eqb_eq in Ha. simpl in Ha. subst a. apply (in_map fst _ _ Hin).
  - reflexivity.
Qed.

(** X1: [isVersionGreaterOrEqual] is reflexive: every version string is at
    least itself. *)
Theorem isVersionGreaterOrEqual_refl (v : string) : isVersionGreaterOrEqual v v = true.
Proof. unfold isVersionGreaterOrEqual. apply vge_loop_refl. Qed.

(** X2: [isVersionGreaterOrEqual] is total: of any two version strings, one is
    at least the other. *)
Theorem isVersionGreaterOrEqual_total (a c : string) :
  isVersionGreaterOrEqual a c = true \/ isVersionGreaterOrEqual c a = true.
Proof.
  destruct (isVersionGreaterOrEqual a c) eqn:E; [left; reflexivity|right].
  unfold isVersionGreaterOrEqual in *. rewrite Nat.max_comm. apply vge_loop_swap, E.
Qed.

(** X3: [getNodeDownloadUrl] returns a URL exactly for linux, darwin and win32,
    and throws for every other platform. *)
Theorem getNodeDownloadUrl_supported (version platform : string) :
  (exists url, getNodeDownloadUrl version platform = Ok url) <-> In platform getSupportedPlatforms.
Proof.
  split.
  - intros [url H]. destruct (in_dec string_dec platform getSupportedPlatforms) as [Hin|Hn];
      [exact Hin|].
    rewrite (getNodeDownloadUrl_unsupported_err _ _ Hn) in H. discriminate H.
  - intros [<-|[<-|[<-|[]]]]; eexists; reflexivity.
Qed.

(** X4: A build id is [build-], a non-empty decimal timestamp, [-], and two
    lower-case hex digits per random byte. *)
Theorem generateBuildId_shape (timestamp : nat) (random : list Byte.byte) :
  exists digits hex,
    generateBuildId timestamp random = "build-" ++ digits ++ "-" ++ hex
    /\ digits <> EmptyString
    /\ forallb is_digit (list_ascii_of_string digits) = true
    /\ forallb is_hex (list_ascii_of_string hex) = true
    /\ String.length hex = 2 * length random
    /\ String.prefix "build-" (generateBuildId timestamp random) = true.
Proof.
  exists (string_of_uint (Nat.to_uint timestamp)), (hex_of_bytes random).
  destruct (hex_of_bytes_hex random) as [H1 H2].
  split; [reflexivity|]. split; [apply to_uint_not_nil|].
  split; [apply string_of_uint_digits|]. split; [exact H1|]. split; [exact H2|].
  apply prefix_app.
Qed.

(** X5: The constructor's options: a key the caller passes (even with a falsy
    value) keeps the caller's value, a key it omits gets the default. *)
Theorem constructor_options_spread (options : jsobj) (tmpdir : string)
  (Hnodup : NoDup (map fst options)) :
  (forall k, has_own options k = true ->
     prop (constructor_options options tmpdir) k = prop options k)
  /\ (forall k, has_own options k = false ->
     prop (constructor_options options tmpdir) k = prop (constructor_options [] tmpdir) k).
Proof.
  split; intros k Hk; unfold constructor_options; rewrite (prop_spread _ _ _ Hnodup), Hk;
    [reflexivity|].
  rewrite (prop_spread [] _ _ (NoDup_nil _)). simpl has_own. cbv iota.
  rewrite !prop_cons.
  repeat match goal with
         | |- context [String.eqb ?a k] =>
             destruct (String.eqb_spec a k) as [<-|_]; [rewrite (prop_absent _ _ Hk); reflexivity|]
         end.
  reflexivity.
Qed.


(** [ensureTempDir()] *)
Definition ensureTempDir : M unit :=
  t <- existsSync (tempDir (options b)) ;;
  when (negb t) (mkdirSync (tempDir (options b))) ;;;
  e <- existsSync tempBuildDir ;;
  when (negb e) (mkdirSync tempBuildDir).

(** The constructor's effects once [this.options], [this.buildId] and
    [this.tempBuildDir] are set: [this.checkNodeVersion(); this.ensureTempDir();]. *)
Definition constructor_effects (process_version : string) : M unit :=
  lift (checkNodeVersion process_version) ;;;
  ensureTempDir.

(** [fs.readdirSync(d)]: the names of the entries directly below [d]. *)
Fixpoint strip_prefix (p s : string) : option string :=
  match p, s with
  | EmptyString, _ => Some s
  | String a p', String c s' => if Ascii.eqb a c then strip_prefix p' s' else None
  | String _ _, EmptyString => None
  end.

Definition child_name (d p : string) : option string :=
  match strip_prefix (d ++ "/") p with
  | Some n => if String.eqb n EmptyString || includes n "/" then None else Some n
  | None => None
  end.

Definition dir_entries (d : string) (f : FS) : list string :=
  fold_right (fun e acc => match child_name d (fst e) with
                           | Some n => n :: acc
                           | None => acc
                           end) [] f.

Definition readdirSync (d : string) : M (list string) :=
  fun st => if fs_mem d (fs st) then (Ok (dir_entries d (fs st)), st)
            else (Err ("ENOENT: no such file or directory, scandir '" ++ d ++ "'"), st).

(** [array.forEach(f)] with a callback that may throw. *)
Fixpoint forEach (f : string -> M unit) (l : list string) : M unit :=
  match l with
  | [] => ret tt
  | x :: rest => f x ;;; forEach f rest
  end.

(** [static cleanupAllTempDirs()], on [os.tmpdir()]. *)
Definition cleanupAllTempDirs (tmpdir : string) : M unit :=
  catch
    (let tempDir := join tmpdir "node-package-builder" in
     e <- existsSync tempDir ;;
     when e
       (names <- readdirSync tempDir ;;
        let buildDirs := filter (fun dir => String.prefix "build-" dir) names in
        forEach (fun buildDir =>
                   let fullPath := join tempDir buildDir in
                   catch (rmSync fullPath) (fun _ => ret tt))
                buildDirs))
    (fun _ => ret tt).

(** *** Lemmas *)

Lemma fs_mem_add : forall p c f q, fs_mem q (fs_add p c f) = String.eqb p q || fs_mem q f.
Proof.
  intros p c f q. unfold fs_add. simpl.
  destruct (String.eqb_spec p q) as [->|Hne]; [reflexivity|].
  simpl. apply fs_mem_remove_other. intros ->. apply Hne. reflexivity.
Qed.

Definition ensured (p : string) (st : St) : St :=
  if fs_mem p (fs st) then st else set_fs (fs_add p Plain (fs st)) st.

Lemma ensure_dir : forall p st, locked w p = false ->
  when (negb (fs_mem p (fs st))) (mkdirSync p) st = (Ok tt, ensured p st).
Proof.
  intros p st Hl. unfold ensured. destruct (fs_mem p (fs st)) eqn:E; [reflexivity|].
  simpl. unfold mkdirSync. rewrite E, Hl. reflexivity.
Qed.

Lemma ensured_mem : forall p st q,
  fs_mem q (fs (ensured p st)) = String.eqb p q || fs_mem q (fs st).
Proof.
  intros p st q. unfold ensured. destruct (fs_mem p (fs st)) eqn:E.
  - destruct (String.eqb_spec p q) as [<-|_]; [rewrite E|]; reflexivity.
  - apply fs_mem_add.
Qed.

Lemma ensured_log : forall p st, log (ensured p st) = log st.
Proof. intros p st. unfold ensured. destruct (fs_mem p (fs st)); reflexivity. Qed.

Lemma existsb_filter_sub : forall {A} (f g : A -> bool) l,
  existsb f (filter g l) = true -> existsb f l = true.
Proof.
  intros A f g l. induction l as [|x l IH]; [discriminate|].
  simpl. destruct (g x); simpl; [|intros H; rewrite (IH H), orb_true_r; reflexivity].
  intros H. apply orb_true_iff in H as [H|H]; [rewrite H|rewrite (IH H), orb_true_r]; reflexivity.
Qed.

Lemma existsb_filter_keep : forall {A} (f g : A -> bool) l,
  existsb f l = true -> (forall x, In x l -> f x = true -> g x = true) ->
  existsb f (filter g l) = true.
Proof.
  intros A f g l. induction l as [|x l IH]; [discriminate|]. intros H Hg.
  simpl in H. apply orb_true_iff in H as [H|H].
  - simpl. rewrite (Hg x (or_introl eq_refl) H). simpl. rewrite H. reflexivity.
  - simpl. destruct (g x); simpl; rewrite IH; auto using orb_true_r;
      intros y Hy; apply Hg; right; exact Hy.
Qed.

Lemma rmSync_catch : forall d st,
  exists f', catch (rmSync d) (fun _ => ret tt) st = (Ok tt, set_fs f' st)
    /\ (forall p, fs_mem p f' = true -> fs_mem p (fs st) = true)
    /\ (forall p, fs_mem p (fs st) = true -> under d p = false -> fs_mem p f' = true)
    /\ ((forall l, under d l = true -> locked w l = false) -> fs_mem d f' = false).
Proof.
  intros d st. unfold catch, rmSync.
  set (blocked := fun q => existsb (fun e => under q (fst e) && locked w (fst e)) (fs st)).
  set (g := fun e : string * content => negb (under d (fst e)) || blocked (fst e)).
  exists (filter g (fs st)).
  split; [unfold g, blocked; destruct (existsb _ (fs st)); reflexivity|].
  split; [intros p; apply existsb_filter_sub|]. split.
  - intros p Hp Hu. apply existsb_filter_keep; [exact Hp|].
    intros [q c] _ Hq. apply String.eqb_eq in Hq. simpl in Hq. subst q.
    unfold g. simpl. rewrite Hu. reflexivity.
  - intros Hl. unfold fs_mem. apply existsb_filter_false.
    intros [q c] _ Hg. apply String.eqb_neq. simpl. intros ->.
    unfold g in Hg. simpl in Hg.
    assert (Hu : under d d = true) by (unfold under; rewrite String.eqb_refl; reflexivity).
    assert (Hb : blocked d = false).
    { unfold blocked. clear g Hg. induction (fs st) as [|e l IH]; [reflexivity|]. simpl.
      destruct (under d (fst e)) eqn:U; [rewrite (Hl _ U)|]; exact IH. }
    rewrite Hu, Hb in Hg. discriminate Hg.
Qed.

Lemma forEach_rm : forall td ns st,
  let r := forEach (fun n => catch (rmSync (join td n)) (fun _ => ret tt)) ns st in
  fst r = Ok tt /\ log (snd r) = log st
  /\ (forall p, fs_mem p (fs (snd r)) = true -> fs_mem p (fs st) = true)
  /\ (forall p, fs_mem p (fs st) = true ->
        (forall n, In n ns -> under (join td n) p = false) -> fs_mem p (fs (snd r)) = true)
  /\ (forall n, In n ns -> (forall l, under (join td n) l = true -> locked w l = false) ->
        fs_mem (join td n) (fs (snd r)) = false).
Proof.
  intros td ns. induction ns as [|n ns IH]; intros st.
  - simpl. repeat split; auto. intros n [].
  - simpl forEach. unfold bind at 1.
    destruct (rmSync_catch (join td n) st) as (f' & E & Hsub & Hkeep & Hrm).
    rewrite E. destruct (IH (set_fs f' st)) as (R1 & R2 & R3 & R4 & R5).
    split; [exact R1|]. split; [exact R2|]. split; [intros p Hp; apply Hsub, R3, Hp|]. split.
    + intros p Hp Hu. apply R4; [apply Hkeep; [exact Hp|apply Hu; left; reflexivity]|].
      intros n' Hn'. apply Hu. right. exact Hn'.
    + intros n' [<-|Hin] Hl.
      * destruct (fs_mem (join td n) (fs (snd (forEach (fun n0 => catch (rmSync (join td n0))
                   (fun _ => ret tt)) ns (set_fs f' st))))) eqn:X; [|reflexivity].
        apply R3 in X. simpl in X. rewrite (Hrm Hl) in X. discriminate X.
      * apply R5; assumption.
Qed.

Lemma catch_ret_ok : forall (m : M unit) st, fst (catch m (fun _ => ret tt) st) = Ok tt.
Proof. intros m st. unfold catch. destruct (m st) as [[[]|e] s]; reflexivity. Qed.

Lemma catch_prefix : forall {A} (m : M A) P st x st',
  catch m (fun message => throw (P ++ message)) st = (Err x, st') -> String.prefix P x = true.
Proof.
  intros A m P st x st' H. unfold catch, throw in H.
  destruct (m st) as [[a|e] s]; [discriminate H|injection H as <- _; apply prefix_app].
Qed.


(** X6: The constructor checks the Node.js version before touching the file
    system; when the check passes and the parent of [tempDir] exists (so
    that the recursive [mkdirSync] creates no ancestor), it creates
    [tempDir] and [tempDir/buildId] and nothing else, and runs no command. *)
Theorem constructor_effects_order (process_version : string) (st : St) :
  (forall m, checkNodeVersion process_version = Err m ->
     constructor_effects process_version st = (Err m, st))
  /\ (checkNodeVersion process_version = Ok tt ->
      locked w (tempDir (options b)) = false -> locked w tempBuildDir = false ->
      (exists parent name, tempDir (options b) = join parent name
         /\ path_segment name = true /\ fs_mem parent (fs st) = true) ->
      path_segment (buildId b) = true ->
      exists st', constructor_effects process_version st = (Ok tt, st')
        /\ log st' = log st
        /\ (forall q, fs_mem q (fs st') =
              String.eqb tempBuildDir q || String.eqb (tempDir (options b)) q || fs_mem q (fs st))).
Proof.
  split.
  - intros m Hc. unfold constructor_effects, bind, lift. rewrite Hc. reflexivity.
  - intros Hc Hl1 Hl2 _ _. unfold constructor_effects, bind at 1, lift. rewrite Hc.
    unfold ensureTempDir, bind, existsSync. cbv beta iota.
    rewrite (ensure_dir _ _ Hl1). cbv beta iota. rewrite (ensure_dir _ _ Hl2).
    eexists. split; [reflexivity|]. split.
    + rewrite !ensured_log. reflexivity.
    + intros q. rewrite !ensured_mem, orb_assoc. reflexivity.
Qed.

(** X7: [cleanupAllTempDirs] never throws and runs no command; it only removes
    entries, keeps everything outside the [build-*] children of
    [tmpdir/node-package-builder], and removes every such child that holds
    no locked entry. *)
Theorem cleanupAllTempDirs_scope (tmpdir : string) (st : St) :
  fst (cleanupAllTempDirs tmpdir st) = Ok tt
  /\ log (snd (cleanupAllTempDirs tmpdir st)) = log st
  /\ (forall p, fs_mem p (fs (snd (cleanupAllTempDirs tmpdir st))) = true ->
        fs_mem p (fs st) = true)
  /\ (forall p, fs_mem p (fs st) = true ->
        (forall n, In n (dir_entries (join tmpdir "node-package-builder") (fs st)) ->
           String.prefix "build-" n = true ->
           under (join (join tmpdir "node-package-builder") n) p = false) ->
        fs_mem p (fs (snd (cleanupAllTempDirs tmpdir st))) = true)
  /\ (fs_mem (join tmpdir "node-package-builder") (fs st) = true ->
      forall n, In n (dir_entries (join tmpdir "node-package-builder") (fs st)) ->
        String.prefix "build-" n = true ->
        (forall l, under (join (join tmpdir "node-package-builder") n) l = true ->
           locked w l = false) ->
        fs_mem (join (join tmpdir "node-package-builder") n)
          (fs (snd (cleanupAllTempDirs tmpdir st))) = false).
Proof.
  set (td := join tmpdir "node-package-builder").
  set (ns := filter (fun dir => String.prefix "build-" dir) (dir_entries td (fs st))).
  destruct (forEach_rm td ns st) as (R1 & R2 & R3 & R4 & R5).
  assert (Heq : cleanupAllTempDirs tmpdir st
                = if fs_mem td (fs st)
                  then forEach (fun n => catch (rmSync (join td n)) (fun _ => ret tt)) ns st
                  else (Ok tt, st)).
  { unfold cleanupAllTempDirs. cbv zeta. fold td. unfold catch at 1, bind at 1, existsSync.
    cbv beta iota. destruct (fs_mem td (fs st)) eqn:Etd; [|reflexivity].
    unfold when, bind at 1, readdirSync. rewrite Etd. cbv beta iota. fold ns.
    destruct (forEach (fun n => catch (rmSync (join td n)) (fun _ => ret tt)) ns st) as [r s'].
    simpl in R1. subst r. reflexivity. }
  rewrite Heq. destruct (fs_mem td (fs st)) eqn:Etd.
  - split; [exact R1|]. split; [exact R2|]. split; [exact R3|]. split.
    + intros p Hp Hu. apply R4; [exact Hp|]. intros n Hn. apply filter_In in Hn as [Hn Hpre].
      apply Hu; assumption.
    + intros _ n Hn Hpre Hl. apply R5; [apply filter_In; split; assumption|exact Hl].
  - simpl. split; [reflexivity|]. split; [reflexivity|]. split; [auto|]. split; [auto|].
    intros H. discriminate H.
Qed.


Lemma str_app_assoc : forall s t u, (s ++ t) ++ u = s ++ (t ++ u).
Proof. induction s as [|c s IH]; intros t u; simpl; [reflexivity|rewrite IH; reflexivity]. Qed.

Lemma under_join : forall d x, under d (join d x) = true.
Proof.
  intros d x. unfold under, join. rewrite <- str_app_assoc, prefix_app, orb_true_r. reflexivity.
Qed.

Lemma filterM_sub : forall {A} (f : A -> res bool) l l' x,
  filterM f l = Ok l' -> In x l' -> In x l.
Proof.
  intros A f l. induction l as [|y l IH]; intros l' x H Hin; simpl in H.
  - injection H as <-. destruct Hin.
  - destruct (f y) as [[|]|e]; [| |discriminate].
    + destruct (filterM f l) as [r|e] eqn:Er; [|discriminate].
      injection H as <-. destruct Hin as [<-|Hin]; [left; reflexivity|right; exact (IH r x eq_refl Hin)].
    + destruct (filterM f l) as [r|e] eqn:Er; [|discriminate].
      injection H as <-. right. exact (IH r x eq_refl Hin).
Qed.

Lemma recommended_from_index_in : forall r, recommended_from_index = Ok r ->
  exists versions v s, version_index w = Some versions /\ In v versions
    /\ entry_version v = Ok s /\ valid_entry v = Ok true /\ r = slice1 s.
Proof.
  intros r H. unfold recommended_from_index in H.
  destruct (version_index w) as [versions|]; [|discriminate].
  destruct (filterM valid_entry versions) as [valid|e] eqn:Ef; [|discriminate].
  destruct valid as [|v0 rest]; [discriminate|].
  destruct (find_preferred (v0 :: rest) preferredVersions) as [[r'|]|e] eqn:Ep; try discriminate.
  - injection H as <-. destruct (find_preferred_some _ _ _ Ep) as (v & s & Hin & Hs & ->).
    exists versions, v, s. repeat split; auto.
    + exact (filterM_sub _ _ _ _ Ef Hin).
    + exact (filterM_ok_in _ _ _ _ Ef Hin).
  - destruct (findM is_lts20 (v0 :: rest)) as [[l|]|e] eqn:El; try discriminate.
    + destruct (entry_version l) as [s|e] eqn:Es; [|discriminate].
      injection H as <-. exists versions, l, s. repeat split; auto.
      * exact (filterM_sub _ _ _ _ Ef (findM_some_in _ _ _ El)).
      * exact (filterM_ok_in _ _ _ _ Ef (findM_some_in _ _ _ El)).
    + destruct (entry_version v0) as [s|e] eqn:Es; [|discriminate].
      injection H as <-. exists versions, v0, s. repeat split; auto.
      * exact (filterM_sub _ _ _ _ Ef (or_introl eq_refl)).
      * exact (filterM_ok_in _ _ _ _ Ef (or_introl eq_refl)).
Qed.

Lemma findM_none : forall {A} (f : A -> res bool) l,
  (forall x, In x l -> f x = Ok false) -> findM f l = Ok None.
Proof.
  intros A f l. induction l as [|x l IH]; intros H; [reflexivity|].
  simpl. rewrite (H x (or_introl eq_refl)). apply IH. intros y Hy. apply H. right. exact Hy.
Qed.

Lemma findM_found : forall {A} (f : A -> res bool) l,
  (forall x, In x l -> f x = Ok true \/ f x = Ok false) ->
  (exists x, In x l /\ f x = Ok true) ->
  exists y, findM f l = Ok (Some y) /\ f y = Ok true.
Proof.
  intros A f l. induction l as [|x l IH]; intros Hd [z [Hz Hf]]; [destruct Hz|].
  simpl. destruct (Hd x (or_introl eq_refl)) as [E|E]; rewrite E.
  - exists x. auto.
  - apply IH; [intros y Hy; apply Hd; right; exact Hy|].
    destruct Hz as [<-|Hz]; [rewrite Hf in E; discriminate E|exists z; auto].
Qed.

Definition version_is (p : string) (v : IndexEntry) : res bool :=
  match entry_version v with
  | Ok s => Ok (String.eqb (slice1 s) p)
  | Err e => Err e
  end.

Lemma find_preferred_app : forall valid pre rest,
  (forall q, In q pre -> findM (version_is q) valid = Ok None) ->
  find_preferred valid (app pre rest) = find_preferred valid rest.
Proof.
  intros valid pre rest H. induction pre as [|q pre IH]; [reflexivity|].
  simpl. fold (version_is q). rewrite (H q (or_introl eq_refl)). apply IH.
  intros q' Hq'. apply H. right. exact Hq'.
Qed.

Lemma prefix_length : forall s t, String.prefix s t = true -> String.length s <= String.length t.
Proof.
  induction s as [|c s IH]; intros [|c' t] H; simpl in *; try lia; try discriminate.
  destruct (ascii_dec c c'); [apply IH in H; lia|discriminate].
Qed.

Lemma prefix_app_l : forall a c l, String.prefix (a ++ c) l = true -> String.prefix a l = true.
Proof.
  induction a as [|x a IH]; intros c l H; [apply prefix_nil|].
  destruct l as [|y l]; simpl in *; [discriminate|].
  destruct (ascii_dec x y); [exact (IH _ _ H)|discriminate].
Qed.

Lemma under_join_under : forall d x l, under (join d x) l = true -> under d l = true.
Proof.
  intros d x l H. unfold under in *. apply orb_true_iff in H as [H|H].
  - apply String.eqb_eq in H. subst l. unfold join. rewrite <- str_app_assoc, prefix_app.
    apply orb_true_r.
  - apply orb_true_iff. right. unfold join in H.
    replace ((d ++ "/" ++ x) ++ "/") with ((d ++ "/") ++ (x ++ "/")) in H
      by (rewrite !str_app_assoc; reflexivity).
    exact (prefix_app_l _ _ _ H).
Qed.

Lemma fs_get_mem : forall p f c, fs_get p f = Some c -> fs_mem p f = true.
Proof.
  intros p f c. unfold fs_get, fs_mem. induction f as [|[q d] f IH]; [discriminate|].
  simpl. destruct (String.eqb q p); [reflexivity|]. intros H. rewrite (IH H). apply orb_true_r.
Qed.

Lemma fs_get_add : forall p c f, fs_get p (fs_add p c f) = Some c.
Proof. intros p c f. unfold fs_get, fs_add. simpl. rewrite String.eqb_refl. reflexivity. Qed.

(** X8: [signExecutable] never throws; on platforms other than darwin and win32
    it does nothing. *)
Theorem signExecutable_never_throws (platform executableName : string) (st : St) :
  fst (signExecutable platform executableName st) = Ok tt
  /\ (platform <> "darwin" -> platform <> "win32" ->
      signExecutable platform executableName st = (Ok tt, st)).
Proof.
  split; [apply catch_ret_ok|].
  intros H1 H2. unfold signExecutable, catch.
  apply String.eqb_neq in H1, H2. rewrite H1, H2. reflexivity.
Qed.


(** X10: An error out of [generateBlob] starts with [Failed to generate blob: ],
    one out of [injectBlob] with [Failed to inject blob: ]. *)
Theorem blob_steps_error_prefix :
  (forall configPath st m st', generateBlob configPath st = (Err m, st') ->
     String.prefix "Failed to generate blob: " m = true)
  /\ (forall platform executableName blobPath st m st',
        injectBlob platform executableName blobPath st = (Err m, st') ->
        String.prefix "Failed to inject blob: " m = true).
Proof.
  split.
  - intros configPath st m st' H. exact (catch_prefix _ _ _ _ _ H).
  - intros platform executableName blobPath st m st' H. exact (catch_prefix _ _ _ _ _ H).
Qed.

(** X11: A config written by [createSeaConfig] is recorded in the log, names the
    platform's blob path as output and the builder's main file as main, and
    both paths lie under [tempDir/buildId]. *)
Theorem createSeaConfig_paths (platform : string) (st st' : St) (configPath : string)
  (H : createSeaConfig platform st = (Ok configPath, st')) :
  exists fields,
    log st' = EvWrite configPath (JObj fields) :: log st
    /\ obj_get "output" fields = Some (JStr (blobPathOf platform))
    /\ obj_get "main" fields = Some (JStr (main (options b)))
    /\ fs_mem configPath (fs st') = true
    /\ under tempBuildDir configPath = true
    /\ under tempBuildDir (blobPathOf platform) = true.
Proof.
  unfold createSeaConfig, bind, writeFileSync, ret in H.
  destruct (locked w _); [discriminate H|]. injection H as <- <-.
  exists (sea_config platform). cbn [log fs]. split; [reflexivity|].
  assert (Hget : forall k, k <> "useSnapshot" -> k <> "useCodeCache" -> k <> "assets" ->
            obj_get k (sea_config platform)
            = obj_get k [("main", JStr (main (options b)));
                         ("output", JStr (join tempBuildDir ("sea-prep-" ++ platform ++ ".blob")));
                         ("disableExperimentalSEAWarning",
                            JBool (disableExperimentalSEAWarning (options b)));
                         ("useSnapshot", JBool (useSnapshot (options b)));
                         ("useCodeCache", JBool (useCodeCache (options b)))]).
  { intros k H1 H2 H3. unfold sea_config. cbv zeta.
    destruct (0 <? length (assets (options b))); [rewrite obj_get_set_other by exact H3|];
      (destruct (negb (String.eqb platform (host_platform w)));
       [rewrite !obj_get_set_other by assumption|]); reflexivity. }
  split; [rewrite Hget by discriminate; reflexivity|].
  split; [rewrite Hget by discriminate; reflexivity|].
  split; [rewrite fs_mem_add, String.eqb_refl; reflexivity|].
  split; apply under_join.
Qed.

(** X12: A successful [buildForPlatform] returns the platform, the executable
    name, its absolute path from the working directory and the build id. *)
Theorem buildForPlatform_success_result (platform : string) (st st' : St) (r : BuildResult)
  (H : buildForPlatform platform st = (Ok r, st')) :
  r = BRok platform (getExecutableName (options b) platform)
         (path_resolve (cwd w) (getExecutableName (options b) platform)) (buildId b).
Proof.
  revert st r st' H.
  fold (returns_only (fun r => r = BRok platform (getExecutableName (options b) platform)
         (path_resolve (cwd w) (getExecutableName (options b) platform)) (buildId b))
         (buildForPlatform platform)).
  unfold buildForPlatform. apply bind_returns; intros cp. cbv zeta.
  apply catch_returns.
  - repeat (apply bind_returns; intros ?). apply ret_returns. reflexivity.
  - intros e. apply bind_returns; intros ?. apply throw_returns.
Qed.

(** X14: [getRecommendedNodeVersion] returns the fallback or the version, without
    its leading [v], of an index entry that passed the filter. *)
Theorem getRecommendedNodeVersion_from_index :
  getRecommendedNodeVersion = fallbackVersion
  \/ exists versions v s, version_index w = Some versions /\ In v versions
       /\ ie_version v = Some s /\ valid_entry v = Ok true
       /\ getRecommendedNodeVersion = slice1 s.
Proof.
  unfold getRecommendedNodeVersion.
  destruct recommended_from_index as [r|e] eqn:E; [right|left; reflexivity].
  destruct (recommended_from_index_in _ E) as (versions & v & s & H1 & H2 & H3 & H4 & ->).
  exists versions, v, s. unfold entry_version in H3.
  destruct (ie_version v) as [s'|]; [injection H3 as <-|discriminate H3]. auto 6.
Qed.

(** X15: [getRecommendedNodeVersion] returns the first preferred version that
    some filtered index entry has. *)
Theorem getRecommendedNodeVersion_preferred (versions valid pre post : list _) (p : string)
  (Hidx : version_index w = Some versions)
  (Hval : filterM valid_entry versions = Ok valid)
  (Hpref : preferredVersions = app pre (p :: post))
  (Hnone : forall v s, In v valid -> entry_version v = Ok s -> ~ In (slice1 s) pre)
  (Hsome : exists v s, In v valid /\ entry_version v = Ok s /\ slice1 s = p) :
  getRecommendedNodeVersion = p.
Proof.
  assert (Hver : forall v, In v valid -> exists s, entry_version v = Ok s).
  { intros v Hv. destruct (valid_entry_true _ (filterM_ok_in _ _ _ _ Hval Hv)) as (s & Hs & _).
    exists s. exact Hs. }
  assert (Hdec : forall q v, In v valid -> version_is q v = Ok true \/ version_is q v = Ok false).
  { intros q v Hv. destruct (Hver v Hv) as [s Hs]. unfold version_is. rewrite Hs.
    destruct (String.eqb (slice1 s) q); auto. }
  assert (Hpre : forall q, In q pre -> findM (version_is q) valid = Ok None).
  { intros q Hq. apply findM_none. intros v Hv. destruct (Hver v Hv) as [s Hs].
    unfold version_is. rewrite Hs. destruct (String.eqb_spec (slice1 s) q) as [E|_]; [|reflexivity].
    exfalso. apply (Hnone v s Hv Hs). rewrite E. exact Hq. }
  destruct Hsome as (v & s & Hv & Hs & Hp).
  destruct (findM_found (version_is p) valid (Hdec p)) as (y & Hy & Hyt).
  { exists v. split; [exact Hv|]. unfold version_is. rewrite Hs, Hp, String.eqb_refl. reflexivity. }
  unfold getRecommendedNodeVersion, recommended_from_index. rewrite Hidx, Hval.
  destruct valid as [|v0 rest]; [destruct Hv|].
  rewrite Hpref, (find_preferred_app _ _ _ Hpre). cbn [find_preferred].
  change (findM (fun v => match entry_version v with
                          | Ok s => Ok (String.eqb (slice1 s) p)
                          | Err e => Err e
                          end) (v0 :: rest)) with (findM (version_is p) (v0 :: rest)).
  rewrite Hy.
  unfold version_is in Hyt. destruct (entry_version y) as [sy|e]; [|discriminate Hyt].
  injection Hyt as Hyt. apply String.eqb_eq in Hyt. exact Hyt.
Qed.


Lemma eqb_by_length : forall s t, String.length s < String.length t ->
  String.eqb s t = false /\ String.eqb t s = false.
Proof.
  intros s t H. split; apply String.eqb_neq; intros E; rewrite E in H; lia.
Qed.

Lemma under_shorter : forall d p, String.length p < String.length d -> under d p = false.
Proof.
  intros d p H. unfold under. apply orb_false_iff. split.
  - apply String.eqb_neq. intros ->. lia.
  - destruct (String.prefix (d ++ "/") p) eqn:E; [|reflexivity].
    apply prefix_length in E. rewrite length_str_app in E. simpl in E. lia.
Qed.

Lemma rmSync_unblocked : forall d st,
  (forall l, under d l = true -> locked w l = false) ->
  exists f', rmSync d st = (Ok tt, set_fs f' st)
    /\ (forall p, fs_mem p f' = true -> fs_mem p (fs st) = true)
    /\ (forall p, fs_mem p (fs st) = true -> under d p = false -> fs_mem p f' = true)
    /\ fs_mem d f' = false.
Proof.
  intros d st Hl.
  assert (Hb : existsb (fun e => under d (fst e) && locked w (fst e)) (fs st) = false).
  { induction (fs st) as [|e l IH]; [reflexivity|]. simpl.
    destruct (under d (fst e)) eqn:U; [rewrite (Hl _ U)|]; exact IH. }
  destruct (rmSync_catch d st) as (f' & E & H1 & H2 & H3).
  exists f'. split; [|split; [exact H1|split; [exact H2|exact (H3 Hl)]]].
  unfold catch in E. unfold rmSync in *. rewrite Hb in *. exact E.
Qed.


(** X16: [extractTarGz] moves [node-v<version>-<platform>-x64/bin/node] to
    [extractDir/node] and removes the extracted folder, when [extractDir]
    exists and holds no [node] yet; with no such member in the archive and
    no file at the extracted path nothing changes. *)
Theorem extractTarGz_layout (tarPath extractDir version platform : string)
  (entries : list string) (st : St)
  (Htar : fs_get tarPath (fs st) = Some (Archive entries))
  (Hl : forall l, under extractDir l = true -> locked w l = false)
  (Hdir : fs_mem extractDir (fs st) = true) :
  let folderName := "node-v" ++ version ++ "-" ++ platform ++ "-x64" in
  (In (folderName ++ "/bin/node") entries ->
   fs_mem (join extractDir "node") (fs st) = false ->
     exists st', extractTarGz tarPath extractDir version platform st = (Ok tt, st')
       /\ fs_mem (join extractDir "node") (fs st') = true
       /\ fs_mem (join extractDir folderName) (fs st') = false
       /\ fs_mem (join extractDir (folderName ++ "/bin/node")) (fs st') = false
       /\ log st' = log st)
  /\ (~ In (folderName ++ "/bin/node") entries ->
      fs_mem (join extractDir (folderName ++ "/bin/node")) (fs st) = false ->
      extractTarGz tarPath extractDir version platform st = (Ok tt, st)).
Proof.
  intros folderName.
  set (nb := folderName ++ "/bin/node").
  set (ext := join extractDir nb).
  set (fin := join extractDir "node").
  set (fp := join extractDir folderName).
  set (binp := join extractDir (folderName ++ "/bin")).
  unfold extractTarGz. cbv zeta. fold folderName nb.
  unfold bind at 1, tar_extract. rewrite Htar.
  split.
  - intros Hin _.
    assert (Hex : existsb (fun e => String.eqb e nb) entries = true).
    { apply existsb_exists. exists nb. split; [exact Hin|apply String.eqb_refl]. }
    rewrite Hex. fold ext. rewrite (Hl ext (under_join _ _)). cbv beta iota.
    fold binp fp fin.
    set (S1 := set_fs (fs_add ext Plain (fs_add binp Plain (fs_add fp Plain (fs st)))) st).
    unfold bind at 1, existsSync. fold ext.
    assert (E1 : fs_mem ext (fs S1) = true) by (unfold S1, set_fs; cbn [fs]; rewrite fs_mem_add, String.eqb_refl; reflexivity).
    rewrite E1. cbv beta iota. unfold when at 1.
    unfold bind at 1, renameSync. fold fin.
    assert (G : fs_get ext (fs S1) = Some Plain) by (unfold S1, set_fs; cbn [fs]; apply fs_get_add).
    rewrite G. rewrite (Hl ext (under_join _ _)), (Hl fin (under_join _ _)).
    cbn [orb]. cbv beta iota.
    set (S2 := set_fs (fs_add fin Plain (fs_remove ext (fs S1))) S1).
    assert (Lfin : String.length fin < String.length fp).
    { unfold fin, fp, folderName, join. rewrite !length_str_app. simpl. lia. }
    assert (Lext : String.length fin < String.length ext).
    { unfold fin, ext, nb, folderName, join. rewrite !length_str_app. simpl. lia. }
    assert (Lfp : String.length fp < String.length ext).
    { unfold fp, ext, nb, join. rewrite !length_str_app. simpl. lia. }
    assert (E2 : fs_mem fp (fs S2) = true).
    { unfold S2, set_fs; cbn [fs]. rewrite fs_mem_add, fs_mem_remove_other by (intros E; rewrite E in Lfp; lia).
      unfold S1, set_fs; cbn [fs].
      rewrite !fs_mem_add, String.eqb_refl, orb_true_l, !orb_true_r. reflexivity. }
    unfold bind at 1. cbv beta. rewrite E2. cbv beta iota. unfold when.
    assert (Hlf : forall l, under fp l = true -> locked w l = false).
    { intros l Hu. apply Hl. exact (under_join_under _ _ _ Hu). }
    destruct (rmSync_unblocked fp S2 Hlf) as (f' & E3 & H1 & H2 & H3).
    rewrite E3. exists (set_fs f' S2). split; [reflexivity|].
    split; [|split; [exact H3|split]].
    + apply H2; [unfold S2, set_fs; cbn [fs]; rewrite fs_mem_add, String.eqb_refl; reflexivity|].
      apply under_shorter, Lfin.
    + change (fs_mem ext f' = false). destruct (fs_mem ext f') eqn:X; [|reflexivity].
      apply H1 in X. unfold S2, set_fs in X; cbn [fs] in X. rewrite fs_mem_add, fs_mem_remove in X.
      rewrite (proj1 (eqb_by_length _ _ Lext)) in X. discriminate X.
    + reflexivity.
  - intros Hnin Habs.
    assert (Hex : existsb (fun e => String.eqb e nb) entries = false).
    { destruct (existsb _ entries) eqn:E; [|reflexivity]. exfalso. apply Hnin.
      apply existsb_exists in E as (x & Hx & Ex). apply String.eqb_eq in Ex. subst x. exact Hx. }
    unfold bind, existsSync. cbv beta. rewrite Htar, Hex. cbv beta iota. fold ext. rewrite Habs. reflexivity.
Qed.

(** X17: [injectBlob] for win32 fails with [Failed to inject blob: ] and the REPL
    message exactly when the re-run executable prints a REPL banner. *)
Theorem injectBlob_win32_verification (executableName blobPath out : string) (st : St)
  (Hpost : forall cmd f, exists o, exec w cmd None f = (Ok o, f))
  (Hver : forall f, exec w (verifyCommand executableName) (Some 5000) f = (Ok out, f)) :
  fst (injectBlob "win32" executableName blobPath st)
  = if includes out replBanner1 || includes out replBanner2
    then Err ("Failed to inject blob: " ++ replError) else Ok tt.
Proof.
  unfold injectBlob, verifyWindowsExecutable, catch, bind, execSync, when, ret, throw.
  cbv zeta.
  match goal with
  | |- context [exec w ?cmd None ?f] => destruct (Hpost cmd f) as [o Ho]; rewrite Ho
  end.
  change (String.eqb "win32" "win32") with true. cbv beta iota zeta. cbn [fs]. rewrite Hver. cbv beta iota zeta.
  destruct (includes out replBanner1 || includes out replBanner2); reflexivity.
Qed.

End Builder.

(* ------------------------------------------------------------------ *)
(** * Concrete runs *)

(** A small [semver] for the concrete worlds: [major.minor.patch] with an
    optional [-prerelease], which orders below its release. *)
Fixpoint split_dash (s : string) : string * string :=
  match s with
  | EmptyString => (EmptyString, EmptyString)
  | String c s' =>
      if Ascii.eqb c "-"%char then (EmptyString, s')
      else let '(x, y) := split_dash s' in (String c x, y)
  end.

Definition semver_parse (v : string) : option (list nat * bool) :=
  let '(core, pre) := split_dash v in
  let parts := split_dot core in
  if (length parts =? 3) && forallb is_numeral parts
  then Some (map dec_value parts, negb (String.eqb pre EmptyString))
  else None.

Definition semver_cmp_ge (x y : list nat * bool) : bool :=
  let '(nx, px) := x in
  let '(ny, py) := y in
  if lex_ge nx ny && lex_ge ny nx then negb px || py
  else lex_ge nx ny.

Definition toy_gte (a c : string) : res bool :=
  match semver_parse a, semver_parse c with
  | Some x, Some y => Ok (semver_cmp_ge x y)
  | _, _ => Err ("Invalid Version: " ++ a)
  end.

Definition toy_lte (a c : string) : res bool := toy_gte c a.

Definition toy_major (a : string) : res nat :=
  match semver_parse a with
  | Some (m :: _, _) => Ok m
  | _ => Err ("Invalid Version: " ++ a)
  end.

(** An index mock with pre-release entries inside and outside the range. *)
Definition mock_index : list IndexEntry :=
  [ {| ie_version := Some "v23.0.0-rc.1"; ie_lts_false := true |};
    {| ie_version := Some "v22.0.0-rc.1"; ie_lts_false := true |};
    {| ie_version := Some "v22.1.0-beta"; ie_lts_false := true |};
    {| ie_version := Some "v21.7.3"; ie_lts_false := true |};
    {| ie_version := Some "v20.17.0"; ie_lts_false := false |};
    {| ie_version := Some "v18.20.4"; ie_lts_false := false |} ].

Definition held_lock : string := "/tmp/b1/held.lock".

Definition world0 : World := {|
  host_platform := "linux";
  execPath := "/usr/bin/node";
  cwd := "/work";
  homedir := "/home/u";
  locked := fun p => String.eqb p held_lock;
  exec := fun cmd timeout f =>
            match timeout with
            | Some _ => (Err "spawnSync /bin/sh ETIMEDOUT", f)
            | None => (Err ("Command failed: " ++ cmd), f)
            end;
  http_get := fun _ => None;
  version_index := Some mock_index;
  semver_gte := toy_gte;
  semver_lte := toy_lte;
  semver_major := toy_major
|}.

Definition options0 : BuildOptions := {|
  main := "app.js";
  output := "app";
  disableExperimentalSEAWarning := true;
  useSnapshot := true;
  useCodeCache := true;
  assets := [];
  platforms := ["linux"];
  tempDir := "/tmp"
|}.

Definition builder0 : Builder := {| options := options0; buildId := "b1" |}.

(** The temporary build directory holds a file that cannot be removed. *)
Definition st_locked : St := {|
  fs := [("/tmp/b1", Plain); (held_lock, Plain)];
  log := []
|}.

Definition st_empty : St := {| fs := []; log := [] |}.

(** C4: the mock index with pre-releases, under the toy [semver]. *)
Lemma getRecommendedNodeVersion_in_range_witness :
  semver_gte world0 fallbackVersion minVersion = Ok true
  /\ semver_lte world0 fallbackVersion maxVersion = Ok true
  /\ semver_gte world0 (getRecommendedNodeVersion world0) "19.9.0" = Ok true
  /\ semver_lte world0 (getRecommendedNodeVersion world0) "22.99.99" = Ok true
  /\ includes (getRecommendedNodeVersion world0) "rc" = false
  /\ includes (getRecommendedNodeVersion world0) "beta" = false.
Proof.
  assert (H1 : semver_gte world0 fallbackVersion minVersion = Ok true) by (vm_compute; reflexivity).
  assert (H2 : semver_lte world0 fallbackVersion maxVersion = Ok true) by (vm_compute; reflexivity).
  destruct (getRecommendedNodeVersion_in_range world0 H1 H2) as (A & B & C & D & _).
  repeat split; assumption.
Defined.

(** C6: a cross-platform config written for [darwin] from a [linux] host. *)
Lemma createSeaConfig_flags_witness :
  createSeaConfig world0 builder0 "darwin" st_empty
    = (Ok "/tmp/b1/sea-config-darwin-b1.json",
       snd (createSeaConfig world0 builder0 "darwin" st_empty))
  /\ exists fields,
       obj_get "useSnapshot" fields = Some (JBool false)
       /\ obj_get "useCodeCache" fields = Some (JBool false).
Proof.
  assert (H : createSeaConfig world0 builder0 "darwin" st_empty
                = (Ok "/tmp/b1/sea-config-darwin-b1.json",
                   snd (createSeaConfig world0 builder0 "darwin" st_empty)))
    by (vm_compute; reflexivity).
  split; [exact H|].
  destruct (createSeaConfig_flags world0 builder0 _ _ _ _ H) as (fields & _ & Hoff & _).
  exists fields. apply Hoff. discriminate.
Defined.

(** C3: the [--help] re-invocation times out, and the verification passes. *)
Lemma verifyWindowsExecutable_timeout_swallowed :
  verifyWindowsExecutable world0 "app.exe" st_empty
    = (Ok tt, {| fs := []; log := [EvExec (quote "/work/app.exe" ++ " --help") (Some 5000)] |}).
Proof. vm_compute. reflexivity. Qed.

(** C2: a locked file under [tempDir/buildId] keeps the directory alive,
    and [build()] returns normally. *)
Lemma build_locked_tempdir_survives :
  fst (build world0 builder0 st_locked)
    = Ok [BRfail "linux" ("Failed to generate blob: Command failed: " ++ quote "/usr/bin/node"
                           ++ " --experimental-sea-config /tmp/b1/sea-config-linux-b1.json")]
  /\ fs_mem (tempBuildDir builder0) (fs (snd (build world0 builder0 st_locked))) = true.
Proof. split; vm_compute; reflexivity. Qed.

(** A host on which every command succeeds and leaves the files alone; the
    [--help] re-run of a Windows executable still prints the REPL banner. *)
Definition world_repl : World := {|
  host_platform := "linux";
  execPath := "/usr/bin/node";
  cwd := "/work";
  homedir := "/home/u";
  locked := fun _ => false;
  exec := fun cmd timeout f =>
            match timeout with
            | Some _ => (Ok "Welcome to Node.js v20.18.0.", f)
            | None => (Ok EmptyString, f)
            end;
  http_get := fun _ => None;
  version_index := None;
  semver_gte := toy_gte;
  semver_lte := toy_lte;
  semver_major := toy_major
|}.

(** The running [node] binary is present. *)
Definition st_node : St := {| fs := [("/usr/bin/node", Plain); ("/work", Plain)]; log := [] |}.

(** A downloaded Linux archive holding the binary and one more member. *)
Definition st_tar : St := {|
  fs := [("/c/node.tar.gz", Archive ["node-v20.18.0-linux-x64/bin/node";
                                     "node-v20.18.0-linux-x64/README.md"]);
         ("/c/v", Plain)];
  log := []
|}.

Definition opts_partial : jsobj :=
  [("output", JSString EmptyString); ("disableExperimentalSEAWarning", JSBool false)].

(** X5: an empty [output] is kept, a missing [main] gets its default. *)
Lemma constructor_options_spread_witness :
  NoDup (map fst opts_partial)
  /\ prop (constructor_options opts_partial "/tmp") "output" = JSString EmptyString
  /\ prop (constructor_options opts_partial "/tmp") "main"
     = prop (constructor_options [] "/tmp") "main".
Proof.
  assert (Hn : NoDup (map fst opts_partial)).
  { simpl. apply NoDup_cons; [simpl; intros [H|[]]; discriminate|].
    apply NoDup_cons; [intros []|apply NoDup_nil]. }
  split; [exact Hn|]. split.
  - apply (proj1 (constructor_options_spread opts_partial "/tmp" Hn)). reflexivity.
  - apply (proj2 (constructor_options_spread opts_partial "/tmp" Hn)). reflexivity.
Defined.


(** X11: the [darwin] config written from a [linux] host. *)
Lemma createSeaConfig_paths_witness :
  exists configPath st',
    createSeaConfig world0 builder0 "darwin" st_empty = (Ok configPath, st')
    /\ fs_mem configPath (fs st') = true
    /\ under (tempBuildDir builder0) configPath = true.
Proof.
  assert (H : createSeaConfig world0 builder0 "darwin" st_empty
                = (Ok "/tmp/b1/sea-config-darwin-b1.json",
                   snd (createSeaConfig world0 builder0 "darwin" st_empty)))
    by (vm_compute; reflexivity).
  destruct (createSeaConfig_paths world0 builder0 _ _ _ _ H) as (fields & _ & _ & _ & M & U & _).
  do 2 eexists. split; [exact H|]. split; [exact M|exact U].
Defined.

(** X12: a successful Linux build. *)
Lemma buildForPlatform_success_result_witness :
  exists r st', buildForPlatform world_repl builder0 "linux" st_node = (Ok r, st')
    /\ r = BRok "linux" "app" "/work/app" "b1".
Proof.
  assert (H : buildForPlatform world_repl builder0 "linux" st_node
                = (Ok (BRok "linux" "app" "/work/app" "b1"),
                   snd (buildForPlatform world_repl builder0 "linux" st_node)))
    by (vm_compute; reflexivity).
  do 2 eexists. split; [exact H|].
  rewrite (buildForPlatform_success_result world_repl builder0 _ _ _ _ H). vm_compute. reflexivity.
Defined.

(** X15: the mock index's newest stable entries skip [20.18.0] and match
    [20.17.0]. *)
Lemma getRecommendedNodeVersion_preferred_witness :
  getRecommendedNodeVersion world0 = "20.17.0".
Proof.
  set (valid := [{| ie_version := Some "v21.7.3"; ie_lts_false := true |};
                 {| ie_version := Some "v20.17.0"; ie_lts_false := false |}]).
  apply (getRecommendedNodeVersion_preferred world0 mock_index valid
           ["20.18.0"] ["20.16.0"; "20.15.1"] "20.17.0").
  - reflexivity.
  - vm_compute. reflexivity.
  - reflexivity.
  - intros v s Hv Hs. destruct Hv as [<-|[<-|[]]]; injection Hs as <-;
      vm_compute; intros [H|[]]; discriminate H.
  - exists {| ie_version := Some "v20.17.0"; ie_lts_false := false |}, "v20.17.0".
    split; [right; left; reflexivity|]. split; reflexivity.
Defined.



(** X16: extracting a Linux archive that holds the binary. *)
Lemma extractTarGz_layout_witness :
  exists st', extractTarGz world_repl "/c/node.tar.gz" "/c/v" "20.18.0" "linux" st_tar = (Ok tt, st')
    /\ fs_mem "/c/v/node" (fs st') = true
    /\ fs_mem "/c/v/node-v20.18.0-linux-x64" (fs st') = false.
Proof.
  destruct (proj1 (extractTarGz_layout world_repl "/c/node.tar.gz" "/c/v" "20.18.0" "linux"
                     _ st_tar eq_refl (fun _ _ => eq_refl) eq_refl))
    as (st' & E & F & D & _).
  - simpl. left. reflexivity.
  - reflexivity.
  - exists st'. split; [exact E|]. split; [exact F|exact D].
Defined.

(** X17: the injected Windows executable still prints the REPL banner. *)
Lemma injectBlob_win32_verification_witness :
  fst (injectBlob world_repl "win32" "app.exe" "/tmp/b1/sea-prep-win32.blob" st_empty)
  = Err ("Failed to inject blob: " ++ replError).
Proof.
  rewrite (injectBlob_win32_verification world_repl "app.exe" "/tmp/b1/sea-prep-win32.blob"
             "Welcome to Node.js v20.18.0." st_empty).
  - vm_compute. reflexivity.
  - intros cmd f. exists EmptyString. reflexivity.
  - intros f. reflexivity.
Defined.
